(** * hfDownloadQuantizeLLM: the download / convert / quantize pipeline

    A shallow embedding of [src/hfDownloadQuantizeLLM.py].

    - Python [str] values are [string]s; the only character the script
      inspects is the separator ['/'].
    - [str.lower] and [str.upper] belong to the Python runtime; they are
      taken as an interface ([CaseOps]) with the ASCII case mapping as
      the instance used for concrete runs.
    - The script's effects (console output, [os.getenv], the hub login,
      [subprocess.run], [subprocess.Popen], [input]) are threaded through
      a state-and-exception monad.  The state holds the external world
      and the chronological trace of the effects performed so far; an
      exception keeps the state reached when it was raised.
    - A call into the world either answers or raises: a subprocess exits
      with a status or cannot be run at all, [input] gives a line or meets
      end of input, [login] succeeds or raises.  Writing to the console
      always succeeds; a console that cannot be decoded, encoded or has
      been closed, and interruption from outside ([KeyboardInterrupt]),
      are not part of the model. *)

From Stdlib Require Import String Ascii List ZArith Lia Bool.
From Stdlib Require Import DecimalString.
Import ListNotations.

Local Open Scope string_scope.
Local Open Scope list_scope.

(** ** Python string primitives *)

Module PyStr.

(** [s.split(sep)] for a one-character separator: never the empty list. *)
Fixpoint split (sep : ascii) (s : string) : list string :=
  match s with
  | EmptyString => [EmptyString]
  | String c rest =>
      if Ascii.eqb c sep then EmptyString :: split sep rest
      else match split sep rest with
           | [] => [String c EmptyString]
           | seg :: segs => String c seg :: segs
           end
  end.

(** [sep.join(parts)]. *)
Fixpoint join (sep : string) (parts : list string) : string :=
  match parts with
  | [] => EmptyString
  | [p] => p
  | p :: rest => p ++ sep ++ join sep rest
  end.

(** [xs[-k:]] for [k > 0]: the last [k] elements, or all of [xs] when it is
    shorter than [k]. *)
Definition slice_last {A : Type} (k : nat) (xs : list A) : list A :=
  skipn (length xs - k) xs.

(** [xs[-1]]: [None] stands for [IndexError]. *)
Definition index_last {A : Type} (xs : list A) : option A :=
  match rev xs with
  | [] => None
  | x :: _ => Some x
  end.

(** [c in s]. *)
Fixpoint contains (c : ascii) (s : string) : bool :=
  match s with
  | EmptyString => false
  | String d rest => Ascii.eqb d c || contains c rest
  end.

(** The case mappings of the runtime. *)
Class CaseOps : Type := {
  lower : string -> string;
  upper : string -> string
}.

Definition is_upper (c : ascii) : bool :=
  let n := nat_of_ascii c in (65 <=? n)%nat && (n <=? 90)%nat.

Definition is_lower (c : ascii) : bool :=
  let n := nat_of_ascii c in (97 <=? n)%nat && (n <=? 122)%nat.

Definition ascii_lower_char (c : ascii) : ascii :=
  if is_upper c then ascii_of_nat (nat_of_ascii c + 32) else c.

Definition ascii_upper_char (c : ascii) : ascii :=
  if is_lower c then ascii_of_nat (nat_of_ascii c - 32) else c.

Fixpoint map_chars (f : ascii -> ascii) (s : string) : string :=
  match s with
  | EmptyString => EmptyString
  | String c rest => String (f c) (map_chars f rest)
  end.

(** [str.lower] and [str.upper] on ASCII text. *)
#[export] Instance ascii_case : CaseOps := {
  lower := map_chars ascii_lower_char;
  upper := map_chars ascii_upper_char
}.

(** [%d] of an [int]. *)
Definition decimal (z : Z) : string := NilZero.string_of_int (Z.to_int z).

End PyStr.

Import PyStr.

Definition slash : ascii := "/"%char.

(** ** Identifier Extractor *)

(** [extract_model_id(repository_url)]: split on ['/'], keep the last two
    parts, join them with ['/']. *)
Definition extract_model_id (repository_url : string) : string :=
  let parts := split slash repository_url in
  let model_id := join "/" (slice_last 2 parts) in
  model_id.

(** ** Effects *)

Definition nl : string := String (ascii_of_nat 10) EmptyString.

(** What [subprocess.run(argv, check=True, text=True, capture_output=True)]
    meets: the child ran and exited, or the call itself raised (the program
    could not be started, its output could not be decoded). *)
Inductive outcome : Type :=
| Exited (returncode : Z) (stdout stderr : string)
| Failed (msg : string).

(** How a child whose output is not captured ends. *)
Inductive status : Type :=
| ExitStatus (returncode : Z)
| Raised (msg : string).

(** The exceptions of the script.  [OtherException] stands for any other
    subclass of [Exception], carrying its [str()]. *)
Inductive exn : Type :=
| CalledProcessError (cmd : list string + string) (returncode : Z)
                     (stdout stderr : option string)
| EOFError
| IndexError
| OtherException (msg : string).

(** One entry per effect, in the order performed, with the answer the
    world gave. *)
Inductive event : Type :=
| Stdout (text : string)
| Getenv (name : string) (value : option string)
| Login (token : string) (raised : option string)
| Run (argv : list string) (res : outcome)
| Popen (argv : list string) (stderr_lines : list string) (res : status)
| Shell (cmd : string) (res : status)
| Input (prompt : string) (line : option string).

(** The world outside the script.  [hub_login] answers [Some msg] when
    [login] raises; [console_input] answers [None] at end of input;
    [subprocess_popen] gives the lines read from the child's stderr and how
    the [with] block ends.  [repr_argv] and [signal_repr] are the runtime's
    [str] of a list of strings and [repr] of a signal number. *)
Class World (W : Type) : Type := {
  os_getenv : string -> W -> option string;
  hub_login : string -> W -> option string * W;
  subprocess_run : list string -> W -> outcome * W;
  subprocess_popen : list string -> W -> (list string * status) * W;
  subprocess_shell : string -> W -> status * W;
  console_input : string -> W -> option string * W;
  repr_argv : list string -> string;
  signal_repr : Z -> option string
}.

Record state (W : Type) : Type := mkState {
  world : W;
  trace : list event
}.
Arguments mkState {W} _ _.
Arguments world {W} _.
Arguments trace {W} _.

Inductive result (A : Type) : Type :=
| Normal (a : A)
| Raise (e : exn).
Arguments Normal {A} _.
Arguments Raise {A} _.

(** State and exceptions: a computation maps a state to a result and the
    state reached. *)
Definition M (W A : Type) : Type := state W -> result A * state W.

Definition ret {W A} (a : A) : M W A := fun st => (Normal a, st).

Definition bind {W A B} (c : M W A) (k : A -> M W B) : M W B :=
  fun st =>
    match c st with
    | (Normal a, st1) => k a st1
    | (Raise e, st1) => (Raise e, st1)
    end.

Definition raise {W A} (e : exn) : M W A := fun st => (Raise e, st).

(** [try: body except ...]: [handler e = None] when no clause matches [e]. *)
Definition try_except {W A} (body : M W A) (handler : exn -> option (M W A))
  : M W A :=
  fun st =>
    match body st with
    | (Normal a, st1) => (Normal a, st1)
    | (Raise e, st1) =>
        match handler e with
        | Some h => h st1
        | None => (Raise e, st1)
        end
    end.

Declare Scope py_scope.
Delimit Scope py_scope with py.
Notation "x <- c ;; k" := (bind c (fun x => k))
  (at level 61, c at next level, right associativity) : py_scope.
Notation "c ;;; k" := (bind c (fun _ => k))
  (at level 61, right associativity) : py_scope.
Local Open Scope py_scope.

(** [for x in xs: body(x)]. *)
Fixpoint for_each {W A} (xs : list A) (body : A -> M W unit) : M W unit :=
  match xs with
  | [] => ret tt
  | x :: rest => body x ;;; for_each rest body
  end.

Definition emit {W} (e : event) : M W unit :=
  fun st => (Normal tt, mkState (world st) (trace st ++ [e])).

(** [print(s)] and [print(s, end='')]. *)
Definition print {W} (s : string) : M W unit := emit (Stdout (s ++ nl)).
Definition print_noend {W} (s : string) : M W unit := emit (Stdout s).

(** [obj] in a boolean context, for an optional string. *)
Definition truthy (v : option string) : bool :=
  match v with
  | Some (String _ _) => true
  | _ => false
  end.

(** [print(x)] of a possibly-[None] string. *)
Definition str_opt (v : option string) : string :=
  match v with
  | Some s => s
  | None => "None"
  end.

(** ** The script *)

Section Script.

Context {W : Type} `{World W} `{CaseOps}.

(** [str(e)]; for [CalledProcessError] this is its [__str__]. *)
Definition str_exn (e : exn) : string :=
  match e with
  | CalledProcessError cmd returncode _ _ =>
      let shown := match cmd with
                   | inl argv => repr_argv argv
                   | inr line => line
                   end in
      if (returncode <? 0)%Z then
        match signal_repr (- returncode) with
        | Some sig => "Command '" ++ shown ++ "' died with " ++ sig ++ "."
        | None => "Command '" ++ shown ++ "' died with unknown signal "
                    ++ decimal (- returncode) ++ "."
        end
      else "Command '" ++ shown ++ "' returned non-zero exit status "
             ++ decimal returncode ++ "."
  | EOFError => "EOF when reading a line"
  | IndexError => "list index out of range"
  | OtherException msg => msg
  end.

(** [os.getenv(name)]. *)
Definition getenv (name : string) : M W (option string) :=
  fun st =>
    let v := os_getenv name (world st) in
    (Normal v, mkState (world st) (trace st ++ [Getenv name v])).

(** [login(token=token)]. *)
Definition login (token : string) : M W unit :=
  fun st =>
    let (r, w) := hub_login token (world st) in
    let st1 := mkState w (trace st ++ [Login token r]) in
    match r with
    | None => (Normal tt, st1)
    | Some msg => (Raise (OtherException msg), st1)
    end.

(** [input(prompt)]. *)
Definition input (prompt : string) : M W string :=
  fun st =>
    let (r, w) := console_input prompt (world st) in
    let st1 := mkState w (trace st ++ [Input prompt r]) in
    match r with
    | Some line => (Normal line, st1)
    | None => (Raise EOFError, st1)
    end.

(** [subprocess.run(argv, check=True, text=True, capture_output=True)]:
    the captured [(stdout, stderr)] of a child that exited with status 0. *)
Definition run_checked (argv : list string) : M W (string * string) :=
  fun st =>
    let (o, w) := subprocess_run argv (world st) in
    let st1 := mkState w (trace st ++ [Run argv o]) in
    match o with
    | Exited returncode out err =>
        if (returncode =? 0)%Z then (Normal (out, err), st1)
        else (Raise (CalledProcessError (inl argv) returncode
                       (Some out) (Some err)), st1)
    | Failed msg => (Raise (OtherException msg), st1)
    end.

(** [subprocess.run(cmd, shell=True, check=True)]. *)
Definition shell_checked (cmd : string) : M W unit :=
  fun st =>
    let (s, w) := subprocess_shell cmd (world st) in
    let st1 := mkState w (trace st ++ [Shell cmd s]) in
    match s with
    | ExitStatus returncode =>
        if (returncode =? 0)%Z then (Normal tt, st1)
        else (Raise (CalledProcessError (inr cmd) returncode None None), st1)
    | Raised msg => (Raise (OtherException msg), st1)
    end.

(** [with subprocess.Popen(argv, stdout=PIPE, stderr=PIPE, text=True) as
    proc: for line in proc.stderr: body(line)], giving [proc.returncode]. *)
Definition with_popen_stderr (argv : list string) (body : string -> M W unit)
  : M W Z :=
  fun st =>
    let '((lines, s), w) := subprocess_popen argv (world st) in
    let st1 := mkState w (trace st ++ [Popen argv lines s]) in
    match for_each lines body st1 with
    | (Normal _, st2) =>
        match s with
        | ExitStatus returncode => (Normal returncode, st2)
        | Raised msg => (Raise (OtherException msg), st2)
        end
    | (Raise e, st2) => (Raise e, st2)
    end.

(** [xs[-1]]. *)
Definition subscript_last (xs : list string) : M W string :=
  match index_last xs with
  | Some x => ret x
  | None => raise IndexError
  end.

Definition hf_login : M W unit :=
  hf_token <- getenv "HF_TOKEN" ;;
  if truthy hf_token then
    try_except
      (login (str_opt hf_token) ;;;
       print "Logged in to Hugging Face successfully.")
      (fun e => Some (print ("Failed to log in to Hugging Face: " ++ str_exn e)))
  else
    print "Hugging Face token not found in environment variables.".

Definition lfs_command : list string := ["git"; "lfs"; "install"].

Definition clone_command (repository_url : string) : list string :=
  ["git"; "clone"; repository_url].

Definition clone_repository (repository_url : string) : M W unit :=
  try_except
    (lfs_process <- run_checked lfs_command ;;
     print ("Git LFS initialized." ++ nl ++ fst lfs_process) ;;;
     returncode <- with_popen_stderr (clone_command repository_url)
                     (fun line => print_noend line) ;;
     if (returncode =? 0)%Z then print "Repository cloned successfully."
     else print "Error occurred while cloning the repository.")
    (fun e =>
       match e with
       | CalledProcessError _ _ _ stderr =>
           Some (print "Error during Git LFS initialization:" ;;;
                 print (str_opt stderr))
       | _ => Some (print ("An error occurred: " ++ str_exn e))
       end).

(** [command] of [convert_model_to_fp16]. *)
Definition convert_command (model_name fp16_output_file : string)
  : list string :=
  ["python"; "llama.cpp/convert.py"; model_name; "--outtype"; "f16";
   "--outfile"; fp16_output_file].

Definition convert_model_to_fp16 (model_name fp16_output_file : string)
  : M W unit :=
  let command := convert_command model_name fp16_output_file in
  try_except
    (result <- run_checked command ;;
     print "Model conversion to fp16 successful. Output:" ;;;
     print (fst result))
    (fun e =>
       match e with
       | CalledProcessError _ _ _ stderr =>
           Some (print "An error occurred during model conversion:" ;;;
                 print (str_opt stderr))
       | _ => None
       end).

(** The catalog, in insertion order. *)
Definition QUANTIZATION_METHODS : list (string * string) :=
  [ ("q2_k", "Uses Q4_K for the attention.vw and feed_forward.w2 tensors, Q2_K for the other tensors.");
    ("q3_k_l", "Uses Q5_K for the attention.wv, attention.wo, and feed_forward.w2 tensors, else Q3_K");
    ("q3_k_m", "Uses Q4_K for the attention.wv, attention.wo, and feed_forward.w2 tensors, else Q3_K");
    ("q3_k_s", "Uses Q3_K for all tensors");
    ("q4_0", "Original quant method, 4-bit.");
    ("q4_1", "Higher accuracy than q4_0 but not as high as q5_0. However has quicker inference than q5 models.");
    ("q4_k_m", "Uses Q6_K for half of the attention.wv and feed_forward.w2 tensors, else Q4_K");
    ("q4_k_s", "Uses Q4_K for all tensors");
    ("q5_0", "Higher accuracy, higher resource usage and slower inference.");
    ("q5_1", "Even higher accuracy, resource usage and slower inference.");
    ("q5_k_m", "Uses Q6_K for half of the attention.wv and feed_forward.w2 tensors, else Q5_K");
    ("q5_k_s", "Uses Q5_K for all tensors");
    ("q6_k", "Uses Q8_K for all tensors");
    ("q8_0", "Almost indistinguishable from float16. High resource use and slow. Not recommended for most users.") ].

(** The f-strings of [main]. *)
Definition fp16_output_file (MODEL_NAME : string) : string :=
  MODEL_NAME ++ "/" ++ lower MODEL_NAME ++ ".fp16.bin".

Definition qtype (MODEL_NAME method : string) : string :=
  MODEL_NAME ++ "/" ++ lower MODEL_NAME ++ "." ++ upper method ++ ".gguf".

Definition quantize_command (fp16_output_file qtype method : string)
  : string :=
  "./llama.cpp/quantize " ++ fp16_output_file ++ " " ++ qtype ++ " " ++ method.

Definition url_prompt : string := "Enter the Git repository URL: ".
Definition method_prompt : string := "Enter your chosen quantization method: ".

(** [print(f"{key}: {description}")]. *)
Definition catalog_line (entry : string * string) : string :=
  fst entry ++ ": " ++ snd entry.

(** [main()], with [sys.argv] as argument. *)
Definition main (argv : list string) : M W unit :=
  hf_login ;;;
  repository_url <-
    (if (1 <? length argv)%nat then ret (nth 1 argv EmptyString)
     else input url_prompt) ;;
  let model_id := extract_model_id repository_url in
  MODEL_NAME <- subscript_last (split slash model_id) ;;
  let fp16_output_file := fp16_output_file MODEL_NAME in
  clone_repository repository_url ;;;
  convert_model_to_fp16 MODEL_NAME fp16_output_file ;;;
  method <-
    (if (2 <? length argv)%nat then ret (nth 2 argv EmptyString)
     else
       print "Please choose a quantization method from the following options:" ;;;
       for_each QUANTIZATION_METHODS (fun entry => print (catalog_line entry)) ;;;
       input method_prompt) ;;
  let qtype := qtype MODEL_NAME method in
  let quantize_command := quantize_command fp16_output_file qtype method in
  try_except
    (shell_checked quantize_command ;;;
     print ("Quantization with method '" ++ method ++ "' completed successfully."))
    (fun e =>
       match e with
       | CalledProcessError _ _ _ _ =>
           Some (print ("An error occurred during quantization: " ++ str_exn e))
       | _ => None
       end).

(** The state in which the script starts. *)
Definition start (w : W) : state W := mkState w [].

End Script.

(** ** A scripted world for concrete runs

    Every external call answers from a fixed script; console input is a
    queue of lines. *)
Record script : Type := mkScript {
  s_token : option string;
  s_login : option string;
  s_lfs : outcome;
  s_clone : list string * status;
  s_convert : outcome;
  s_quantize : status;
  s_stdin : list string
}.

Definition is_git (argv : list string) : bool :=
  match argv with
  | prog :: _ => String.eqb prog "git"
  | [] => false
  end.

(** [str] of a list of strings whose characters need no escaping. *)
Definition plain_repr (argv : list string) : string :=
  ("[" ++ join ", " (map (fun a => "'" ++ a ++ "'") argv) ++ "]")%string.

#[export] Instance scripted : World script := {
  os_getenv := fun name s =>
    if String.eqb name "HF_TOKEN" then s_token s else None;
  hub_login := fun _ s => (s_login s, s);
  subprocess_run := fun argv s =>
    (if is_git argv then s_lfs s else s_convert s, s);
  subprocess_popen := fun _ s => (s_clone s, s);
  subprocess_shell := fun _ s => (s_quantize s, s);
  console_input := fun _ s =>
    match s_stdin s with
    | [] => (None, s)
    | line :: rest =>
        (Some line,
         mkScript (s_token s) (s_login s) (s_lfs s) (s_clone s)
                  (s_convert s) (s_quantize s) rest)
    end;
  repr_argv := plain_repr;
  signal_repr := fun _ => None
}.

(** The result and the trace of a run of [main] in a scripted world. *)
Definition run_result (argv : list string) (s : script) : result unit :=
  fst (main argv (start s)).

Definition run_state (argv : list string) (s : script) : state script :=
  snd (main argv (start s)).

Definition run_trace (argv : list string) (s : script) : list event :=
  trace (run_state argv s).

(** Some runs. *)
Definition script_path : string := "hfDownloadQuantizeLLM.py".
Definition demo_url : string := "https://huggingface.co/org/Foo-7B".

Definition all_succeed (stdin : list string) : script :=
  mkScript None None (Exited 0 "" "") (["Cloning into 'Foo-7B'..."], ExitStatus 0)
    (Exited 0 "" "") (ExitStatus 0) stdin.



(** ** The events of each stage

    What each stage appends to the trace, as a function of the answers it
    received.  The lemmas of the next part show that the stage functions
    produce exactly these. *)

Section StageEvents.

Context {W : Type} `{World W} `{CaseOps}.

(** The event of [print(s)]. *)
Definition Printed (s : string) : event := Stdout (s ++ nl).

Definition login_events (token : option string) (raised : option string)
  : list event :=
  Getenv "HF_TOKEN" token ::
  if truthy token then
    [Login (str_opt token) raised;
     Printed (match raised with
              | None => "Logged in to Hugging Face successfully."
              | Some msg => "Failed to log in to Hugging Face: " ++ msg
              end)]
  else
    [Printed "Hugging Face token not found in environment variables."].

Definition clone_events (repository_url : string) (lfs : outcome)
  (clone : list string * status) : list event :=
  Run lfs_command lfs ::
  match lfs with
  | Exited returncode out err =>
      if (returncode =? 0)%Z then
        Printed ("Git LFS initialized." ++ nl ++ out) ::
        Popen (clone_command repository_url) (fst clone) (snd clone) ::
        map Stdout (fst clone) ++
        [Printed (match snd clone with
                  | ExitStatus rc =>
                      if (rc =? 0)%Z then "Repository cloned successfully."
                      else "Error occurred while cloning the repository."
                  | Raised msg => "An error occurred: " ++ msg
                  end)]
      else
        [Printed "Error during Git LFS initialization:"; Printed err]
  | Failed msg => [Printed ("An error occurred: " ++ msg)]
  end.

Definition convert_events (model_name fp16_output_file : string)
  (conv : outcome) : list event :=
  Run (convert_command model_name fp16_output_file) conv ::
  match conv with
  | Exited returncode out err =>
      if (returncode =? 0)%Z then
        [Printed "Model conversion to fp16 successful. Output:"; Printed out]
      else
        [Printed "An error occurred during model conversion:"; Printed err]
  | Failed _ => []
  end.

Definition catalog_events : list event :=
  Printed "Please choose a quantization method from the following options:" ::
  map (fun entry => Printed (catalog_line entry)) QUANTIZATION_METHODS.

Definition quantize_events (cmd method : string) (s : status) : list event :=
  Shell cmd s ::
  match s with
  | ExitStatus returncode =>
      if (returncode =? 0)%Z then
        [Printed ("Quantization with method '" ++ method
                    ++ "' completed successfully.")]
      else
        [Printed ("An error occurred during quantization: "
                    ++ str_exn (CalledProcessError (inr cmd) returncode
                                  None None))]
  | Raised _ => []
  end.

Definition convert_result (conv : outcome) : result unit :=
  match conv with
  | Exited _ _ _ => Normal tt
  | Failed msg => Raise (OtherException msg)
  end.

Definition quantize_result (s : status) : result unit :=
  match s with
  | ExitStatus _ => Normal tt
  | Raised msg => Raise (OtherException msg)
  end.

(** Where the repository reference comes from. *)
Inductive url_source (argv : list string) : string -> list event -> Prop :=
| url_from_argv :
    (1 < length argv)%nat -> url_source argv (nth 1 argv EmptyString) []
| url_from_prompt (line : string) :
    (length argv <= 1)%nat ->
    url_source argv line [Input url_prompt (Some line)].

(** Where the method code comes from. *)
Inductive method_source (argv : list string) : string -> list event -> Prop :=
| method_from_argv :
    (2 < length argv)%nat -> method_source argv (nth 2 argv EmptyString) []
| method_from_prompt (line : string) :
    (length argv <= 2)%nat ->
    method_source argv line
      (catalog_events ++ [Input method_prompt (Some line)]).

(** [MODEL_NAME] as [main] derives it from the reference. *)
Definition model_name_of (repository_url : string) : option string :=
  index_last (split slash (extract_model_id repository_url)).

(** The four ways a run of [main] can go: no reference could be read; the
    converter call raised; no method code could be read; the quantizer
    was invoked. *)
Inductive main_run (argv : list string) (token : option string)
  : result unit -> list event -> Prop :=
| run_no_url (raised : option string) :
    (length argv <= 1)%nat ->
    main_run argv token (Raise EOFError)
      (login_events token raised ++ [Input url_prompt None])
| run_convert_raised raised url src name lfs clone msg :
    url_source argv url src ->
    model_name_of url = Some name ->
    main_run argv token (Raise (OtherException msg))
      (login_events token raised ++ src ++ clone_events url lfs clone
         ++ convert_events name (fp16_output_file name) (Failed msg))
| run_no_method raised url src name lfs clone returncode out err :
    url_source argv url src ->
    model_name_of url = Some name ->
    (length argv <= 2)%nat ->
    main_run argv token (Raise EOFError)
      (login_events token raised ++ src ++ clone_events url lfs clone
         ++ convert_events name (fp16_output_file name)
              (Exited returncode out err)
         ++ catalog_events ++ [Input method_prompt None])
| run_quantize raised url src name lfs clone returncode out err
               method msrc s :
    url_source argv url src ->
    model_name_of url = Some name ->
    method_source argv method msrc ->
    main_run argv token (quantize_result s)
      (login_events token raised ++ src ++ clone_events url lfs clone
         ++ convert_events name (fp16_output_file name)
              (Exited returncode out err)
         ++ msrc
         ++ quantize_events
              (quantize_command (fp16_output_file name) (qtype name method)
                 method)
              method s).

End StageEvents.

(** ** Observations on traces *)

(** The calls into the world: everything but console output. *)
Definition is_call (e : event) : bool :=
  match e with
  | Stdout _ => false
  | _ => true
  end.

Definition calls (tr : list event) : list event := filter is_call tr.

(** The reference [url] was supplied: as first command-line argument, or
    at the prompt. *)
Definition url_given (argv : list string) (tr : list event) (url : string)
  : Prop :=
  ((1 < length argv)%nat /\ nth 1 argv EmptyString = url) \/
  ((length argv <= 1)%nat /\ In (Input url_prompt (Some url)) tr).

(** The method code [method] was supplied: as second command-line
    argument, or at the prompt. *)
Definition method_given (argv : list string) (tr : list event)
  (method : string) : Prop :=
  ((2 < length argv)%nat /\ nth 2 argv EmptyString = method) \/
  ((length argv <= 2)%nat /\ In (Input method_prompt (Some method)) tr).

(** ** Counting calls *)

Definition is_login (e : event) : bool :=
  match e with
  | Login _ _ => true
  | _ => false
  end.

Definition is_run_of (argv : list string) (e : event) : bool :=
  match e with
  | Run a _ => if list_eq_dec string_dec a argv then true else false
  | _ => false
  end.

Definition is_popen (e : event) : bool :=
  match e with
  | Popen _ _ _ => true
  | _ => false
  end.

Definition is_shell (e : event) : bool :=
  match e with
  | Shell _ _ => true
  | _ => false
  end.

Definition is_input_of (prompt : string) (e : event) : bool :=
  match e with
  | Input p _ => String.eqb p prompt
  | _ => false
  end.

(** How many events of a trace satisfy [p]. *)
Definition count (p : event -> bool) (tr : list event) : nat :=
  length (filter p tr).

(** Further scripted worlds. *)
Definition login_denied : script :=
  mkScript (Some "hf_secret") (Some "Invalid user token") (Exited 0 "" "")
    ([], ExitStatus 0) (Exited 0 "" "") (ExitStatus 0) [].

Definition git_missing : script :=
  mkScript None None (Failed "No such file or directory: 'git'")
    ([], ExitStatus 0) (Exited 0 "" "") (ExitStatus 0) [].

Definition clone_fails : script :=
  mkScript None None (Exited 0 "" "")
    (["fatal: repository not found"], ExitStatus 128) (Exited 0 "" "")
    (ExitStatus 0) [].

Definition converter_missing : script :=
  mkScript None None (Exited 0 "" "") ([], ExitStatus 0)
    (Failed "No such file or directory: 'python'") (ExitStatus 0) [].

Definition quantize_fails : script :=
  mkScript None None (Exited 0 "" "") ([], ExitStatus 0) (Exited 0 "done" "warn")
    (ExitStatus 1) [].

Definition demo_argv : list string := [script_path; demo_url; "q4_k_m"].

Definition demo_quantize_line : string :=
  "./llama.cpp/quantize Foo-7B/foo-7b.fp16.bin Foo-7B/foo-7b.Q4_K_M.gguf q4_k_m".

(** * Properties *)

(** ** Splitting and joining *)

Section SplitJoin.

Variable sep : ascii.

Lemma split_nonempty (s : string) : split sep s <> [].
Proof.
  destruct s as [|c rest]; simpl; [discriminate|].
  destruct (Ascii.eqb c sep); [discriminate|].
  destruct (split sep rest); discriminate.
Qed.

Lemma split_without_sep (s : string) :
  contains sep s = false -> split sep s = [s].
Proof.
  induction s as [|c rest IH]; simpl; intros Hc; [reflexivity|].
  apply orb_false_iff in Hc as [Hc Hrest].
  rewrite Hc, (IH Hrest). reflexivity.
Qed.

Lemma split_segments_clean (s : string) :
  Forall (fun seg => contains sep seg = false) (split sep s).
Proof.
  induction s as [|c rest IH]; simpl.
  - repeat constructor.
  - destruct (Ascii.eqb c sep) eqn:Hc.
    + constructor; [reflexivity | exact IH].
    + destruct (split sep rest) as [|seg segs].
      * repeat constructor. simpl. now rewrite Hc.
      * inversion IH; subst. constructor; [|assumption].
        simpl. now rewrite Hc.
Qed.

Lemma split_cons_clean (seg rest : string) :
  contains sep seg = false ->
  split sep (seg ++ String sep rest)%string = seg :: split sep rest.
Proof.
  induction seg as [|c seg IH]; simpl; intros Hc.
  - now rewrite Ascii.eqb_refl.
  - apply orb_false_iff in Hc as [Hc Hseg].
    now rewrite Hc, (IH Hseg).
Qed.

Lemma split_join (parts : list string) :
  parts <> [] ->
  Forall (fun seg => contains sep seg = false) parts ->
  split sep (join (String sep EmptyString) parts) = parts.
Proof.
  induction parts as [|p rest IH]; [congruence|].
  intros _ Hall. inversion Hall as [|? ? Hp Hrest]; subst.
  destruct rest as [|q rest'].
  - simpl. now apply split_without_sep.
  - change (join (String sep EmptyString) (p :: q :: rest'))
      with (p ++ String sep (join (String sep EmptyString) (q :: rest')))%string.
    rewrite (split_cons_clean _ _ Hp). f_equal.
    apply IH; [discriminate | assumption].
Qed.

Lemma split_length_sep (s : string) :
  (2 <= length (split sep s))%nat <-> contains sep s = true.
Proof.
  induction s as [|c rest IH]; simpl.
  - split; [lia | discriminate].
  - destruct (Ascii.eqb c sep) eqn:Hc; simpl.
    + pose proof (split_nonempty rest).
      destruct (split sep rest); [congruence|]. simpl. split; [reflexivity | lia].
    + destruct (split sep rest) as [|seg segs] eqn:Hs.
      * now destruct (split_nonempty rest).
      * exact IH.
Qed.

End SplitJoin.

(** ** Slices *)

Lemma slice_last_short {A : Type} (k : nat) (xs : list A) :
  (length xs <= k)%nat -> slice_last k xs = xs.
Proof.
  intros Hlen. unfold slice_last.
  replace (length xs - k)%nat with 0%nat by lia. reflexivity.
Qed.

Lemma slice_last_app {A : Type} (pre suffix : list A) :
  slice_last (length suffix) (pre ++ suffix) = suffix.
Proof.
  unfold slice_last. rewrite length_app.
  replace (length pre + length suffix - length suffix)%nat
    with (length pre + 0)%nat by lia.
  rewrite skipn_app, skipn_all2 by lia.
  replace (length pre + 0 - length pre)%nat with 0%nat by lia. reflexivity.
Qed.

Lemma slice_last_length {A : Type} (k : nat) (xs : list A) :
  (length (slice_last k xs) <= k)%nat.
Proof. unfold slice_last. rewrite length_skipn. lia. Qed.

Lemma slice_last_nonempty {A : Type} (k : nat) (xs : list A) :
  (0 < k)%nat -> xs <> [] -> slice_last k xs <> [].
Proof.
  intros Hk Hxs Hnil.
  assert (Hlen : length (slice_last k xs) = 0%nat) by now rewrite Hnil.
  unfold slice_last in Hlen. rewrite length_skipn in Hlen.
  destruct xs; [congruence | cbn [length] in Hlen; lia].
Qed.

Lemma slice_last_Forall {A : Type} (P : A -> Prop) (k : nat) (xs : list A) :
  Forall P xs -> Forall P (slice_last k xs).
Proof.
  intros Hall. unfold slice_last.
  rewrite <- (firstn_skipn (length xs - k) xs) in Hall.
  now apply Forall_app in Hall.
Qed.

Lemma last_two_exists {A : Type} (xs : list A) :
  (2 <= length xs)%nat -> exists pre a b, xs = pre ++ [a; b].
Proof.
  intros Hlen.
  destruct (rev xs) as [|b [|a rpre]] eqn:Hrev.
  - apply (f_equal (@length A)) in Hrev. rewrite length_rev in Hrev.
    simpl in Hrev. lia.
  - apply (f_equal (@length A)) in Hrev. rewrite length_rev in Hrev.
    simpl in Hrev. lia.
  - exists (rev rpre), a, b.
    rewrite <- (rev_involutive xs), Hrev. simpl.
    now rewrite <- app_assoc.
Qed.

Lemma index_last_some {A : Type} (xs : list A) :
  xs <> [] -> exists x, index_last xs = Some x.
Proof.
  intros Hxs. unfold index_last.
  destruct (rev xs) as [|x rest] eqn:Hrev; [|now exists x].
  apply (f_equal (@rev A)) in Hrev. rewrite rev_involutive in Hrev.
  now destruct Hxs.
Qed.

Lemma contains_app (c : ascii) (s t : string) :
  contains c (s ++ t) = contains c s || contains c t.
Proof.
  induction s as [|d s IH]; simpl; [reflexivity|].
  now rewrite IH, orb_assoc.
Qed.

Lemma index_last_app_r {A : Type} (pre suffix : list A) :
  suffix <> [] -> index_last (pre ++ suffix) = index_last suffix.
Proof.
  intros Hne. unfold index_last. rewrite rev_app_distr.
  destruct (rev suffix) as [|x rest] eqn:Hrev; [|reflexivity].
  apply (f_equal (@rev A)) in Hrev. rewrite rev_involutive in Hrev.
  now destruct Hne.
Qed.

Lemma index_last_slice {A : Type} (k : nat) (xs : list A) :
  (0 < k)%nat -> index_last (slice_last k xs) = index_last xs.
Proof.
  intros Hk. destruct xs as [|x rest]; [reflexivity|].
  rewrite <- (firstn_skipn (length (x :: rest) - k) (x :: rest)) at 2.
  symmetry. apply index_last_app_r.
  now apply (slice_last_nonempty k (x :: rest)).
Qed.


(** ** Identifier Extractor *)

(** C1: a reference with at least two ['/']-delimited segments is mapped
    to its last two segments joined by ['/']. *)
Theorem extract_model_id_last_two (repository_url : string) :
  (2 <= length (split slash repository_url))%nat ->
  exists pre owner name,
    split slash repository_url = pre ++ [owner; name] /\
    extract_model_id repository_url = (owner ++ "/" ++ name)%string.
Proof.
  intros Hlen.
  destruct (last_two_exists _ Hlen) as (pre & owner & name & Hsplit).
  exists pre, owner, name. split; [exact Hsplit|].
  unfold extract_model_id. rewrite Hsplit.
  change 2%nat with (length [owner; name]).
  now rewrite slice_last_app.
Qed.

Lemma extract_model_id_last_two_witness :
  (2 <= length (split slash "https://host/org/model-name"))%nat /\
  exists pre owner name,
    split slash "https://host/org/model-name" = pre ++ [owner; name] /\
    extract_model_id "https://host/org/model-name" = (owner ++ "/" ++ name)%string.
Proof.
  split; [vm_compute; lia|].
  apply (extract_model_id_last_two "https://host/org/model-name").
  vm_compute; lia.
Defined.

Example extract_model_id_example :
  extract_model_id "https://host/org/model-name" = "org/model-name".
Proof. reflexivity. Qed.

(** C9: extracting twice gives what extracting once gives. *)
Theorem extract_model_id_idempotent (u : string) :
  extract_model_id (extract_model_id u) = extract_model_id u.
Proof.
  unfold extract_model_id.
  set (kept := slice_last 2 (split slash u)).
  assert (Hne : kept <> []).
  { apply slice_last_nonempty; [lia | apply split_nonempty]. }
  assert (Hclean : Forall (fun seg => contains slash seg = false) kept).
  { apply slice_last_Forall, split_segments_clean. }
  change "/" with (String slash EmptyString).
  rewrite (split_join slash kept Hne Hclean).
  rewrite slice_last_short; [reflexivity | apply slice_last_length].
Qed.

(** C10: a reference without any ['/'] (the empty one included) comes
    back unchanged. *)
Theorem extract_model_id_no_slash (repository_url : string) :
  contains slash repository_url = false ->
  extract_model_id repository_url = repository_url.
Proof.
  intros Hc. unfold extract_model_id.
  rewrite (split_without_sep slash _ Hc). reflexivity.
Qed.

Lemma extract_model_id_no_slash_witness :
  contains slash "model-name" = false /\
  extract_model_id "model-name" = "model-name" /\
  extract_model_id "" = "".
Proof.
  split; [reflexivity|].
  split; [apply (extract_model_id_no_slash "model-name") |
          apply (extract_model_id_no_slash "")]; reflexivity.
Defined.

(** The Model Name is the last segment of the reference itself. *)
Lemma extract_model_id_last_segment (repository_url : string) :
  index_last (split slash (extract_model_id repository_url))
  = index_last (split slash repository_url).
Proof.
  unfold extract_model_id.
  change "/"%string with (String slash EmptyString).
  rewrite split_join.
  - apply index_last_slice. lia.
  - apply slice_last_nonempty; [lia | apply split_nonempty].
  - apply slice_last_Forall, split_segments_clean.
Qed.

(** ** The stages, one by one *)

Section Stages.

Context {W : Type} `{World W} `{CaseOps}.

Lemma app_cons_assoc {A : Type} (xs : list A) (x : A) (ys : list A) :
  (xs ++ [x]) ++ ys = xs ++ x :: ys.
Proof. now rewrite <- app_assoc. Qed.

Lemma for_each_print_noend (lines : list string) (st : state W) :
  for_each lines (fun line => print_noend line) st
  = (Normal tt, mkState (world st) (trace st ++ map Stdout lines)).
Proof.
  revert st. induction lines as [|line rest IH]; intros [w tr]; simpl.
  - unfold ret. now rewrite app_nil_r.
  - unfold bind, print_noend, emit. simpl. rewrite IH. simpl.
    now rewrite app_cons_assoc.
Qed.

Lemma for_each_print_catalog (entries : list (string * string))
  (st : state W) :
  for_each entries (fun entry => print (catalog_line entry)) st
  = (Normal tt,
     mkState (world st)
       (trace st ++ map (fun entry => Stdout (catalog_line entry ++ nl))
                      entries)).
Proof.
  revert st. induction entries as [|entry rest IH]; intros [w tr]; simpl.
  - unfold ret. now rewrite app_nil_r.
  - unfold bind, print, emit. simpl. rewrite IH. simpl.
    now rewrite app_cons_assoc.
Qed.

(** [hf_login] always returns. *)
Lemma hf_login_run (st : state W) :
  exists raised w',
    hf_login st
    = (Normal tt,
       mkState w'
         (trace st ++ login_events (os_getenv "HF_TOKEN" (world st)) raised)).
Proof.
  destruct st as [w tr]. unfold hf_login, login_events, bind, getenv. simpl.
  destruct (os_getenv "HF_TOKEN" w) as [[|c tok]|] eqn:Htok; simpl.
  - exists None, w. unfold print, emit. simpl. now rewrite app_cons_assoc.
  - unfold try_except, bind, login. simpl.
    destruct (hub_login (String c tok) w) as [[msg|] w'] eqn:Hlogin; simpl.
    + exists (Some msg), w'. unfold print, emit. simpl.
      now rewrite !app_cons_assoc.
    + exists None, w'. unfold print, emit. simpl.
      now rewrite !app_cons_assoc.
  - exists None, w. unfold print, emit. simpl. now rewrite app_cons_assoc.
Qed.

(** [clone_repository] always returns. *)
Lemma clone_repository_run (repository_url : string) (st : state W) :
  exists clone w',
    clone_repository repository_url st
    = (Normal tt,
       mkState w'
         (trace st ++
          clone_events repository_url
            (fst (subprocess_run lfs_command (world st))) clone)).
Proof.
  destruct st as [w tr].
  unfold clone_repository, clone_events, try_except, bind, run_checked. simpl.
  destruct (subprocess_run lfs_command w) as [[rc out err|msg] w1]; simpl.
  - destruct (rc =? 0)%Z; simpl.
    + unfold with_popen_stderr. simpl.
      destruct (subprocess_popen (clone_command repository_url) w1)
        as [[lines s] w2] eqn:Hp. simpl.
      rewrite for_each_print_noend. simpl.
      exists (lines, s), w2. simpl.
      destruct s as [rc2|msg]; simpl.
      * destruct (rc2 =? 0)%Z; unfold print, emit; simpl;
          now rewrite <- !app_assoc.
      * unfold print, emit; simpl. now rewrite <- !app_assoc.
    + exists ([], ExitStatus 0), w1. unfold print, emit. simpl.
      now rewrite <- !app_assoc.
  - exists ([], ExitStatus 0), w1. unfold print, emit. simpl.
    now rewrite <- !app_assoc.
Qed.

(** [convert_model_to_fp16] returns unless the call itself raised. *)
Lemma convert_model_to_fp16_run (model_name fp16_path : string)
  (st : state W) :
  convert_model_to_fp16 model_name fp16_path st
  = (convert_result
       (fst (subprocess_run (convert_command model_name fp16_path) (world st))),
     mkState
       (snd (subprocess_run (convert_command model_name fp16_path) (world st)))
       (trace st ++
        convert_events model_name fp16_path
          (fst (subprocess_run (convert_command model_name fp16_path)
                  (world st))))).
Proof.
  destruct st as [w tr].
  unfold convert_model_to_fp16, convert_events, try_except, bind, run_checked.
  simpl.
  destruct (subprocess_run (convert_command model_name fp16_path) w)
    as [[rc out err|msg] w1]; simpl.
  - destruct (rc =? 0)%Z; unfold print, emit; simpl;
      now rewrite <- !app_assoc.
  - reflexivity.
Qed.

Lemma model_name_defined (repository_url : string) :
  exists name, model_name_of repository_url = Some name.
Proof. apply index_last_some, split_nonempty. Qed.

Lemma quantize_stage_run (cmd method : string) (st : state W) :
  try_except
    (shell_checked cmd ;;;
     print ("Quantization with method '" ++ method
              ++ "' completed successfully."))
    (fun e =>
       match e with
       | CalledProcessError _ _ _ _ =>
           Some (print ("An error occurred during quantization: "
                          ++ str_exn e))
       | _ => None
       end) st
  = (quantize_result (fst (subprocess_shell cmd (world st))),
     mkState (snd (subprocess_shell cmd (world st)))
       (trace st ++
        quantize_events cmd method (fst (subprocess_shell cmd (world st))))).
Proof.
  destruct st as [w tr].
  unfold try_except, bind, shell_checked, quantize_events. simpl.
  destruct (subprocess_shell cmd w) as [[rc|msg] w1]; simpl.
  - destruct (rc =? 0)%Z; unfold print, emit; simpl;
      now rewrite <- !app_assoc.
  - reflexivity.
Qed.

(** Every run of [main] has one of the four shapes. *)
Lemma main_runs (argv : list string) (st st' : state W) (r : result unit) :
  main argv st = (r, st') ->
  exists tr,
    trace st' = trace st ++ tr /\
    main_run argv (os_getenv "HF_TOKEN" (world st)) r tr.
Proof.
  unfold main. intros Hrun.
  destruct (hf_login_run st) as (raised & w1 & Hlogin).
  unfold bind at 1 in Hrun. rewrite Hlogin in Hrun.
  remember (os_getenv "HF_TOKEN" (world st)) as tok eqn:Etok.
  remember (login_events tok raised) as t0 eqn:Et0.
  (* the repository reference *)
  assert (Hurl :
    (exists w2, (if (1 <? length argv)%nat then ret (nth 1 argv EmptyString)
                 else input url_prompt) (mkState w1 (trace st ++ t0))
                = (Raise EOFError,
                   mkState w2 (trace st ++ t0 ++ [Input url_prompt None]))
                /\ (length argv <= 1)%nat)
    \/ (exists url src w2,
          (if (1 <? length argv)%nat then ret (nth 1 argv EmptyString)
           else input url_prompt) (mkState w1 (trace st ++ t0))
          = (Normal url, mkState w2 (trace st ++ t0 ++ src))
          /\ url_source argv url src)).
  { destruct (1 <? length argv)%nat eqn:Hargv.
    - right. exists (nth 1 argv EmptyString), [], w1. rewrite app_nil_r.
      split; [reflexivity|]. constructor. now apply Nat.ltb_lt.
    - apply Nat.ltb_ge in Hargv. unfold input. cbn [world trace].
      destruct (console_input url_prompt w1) as [[line|] w2].
      + right. exists line, [Input url_prompt (Some line)], w2.
        rewrite <- app_assoc. split; [reflexivity|]. now constructor.
      + left. exists w2. now rewrite <- app_assoc. }
  destruct Hurl as [(w2 & Hurl & Hargv) | (url & src & w2 & Hurl & Hsrc)];
    unfold bind at 1 in Hrun; rewrite Hurl in Hrun.
  { injection Hrun as <- <-.
    exists (t0 ++ [Input url_prompt None]). split; [reflexivity|].
    subst t0. now constructor. }
  destruct (model_name_defined url) as [name Hname].
  unfold bind at 1, subscript_last in Hrun.
  pose proof Hname as Hlast. unfold model_name_of in Hlast.
  rewrite Hlast in Hrun. unfold ret at 1 in Hrun.
  destruct (clone_repository_run url (mkState w2 (trace st ++ t0 ++ src)))
    as (clone & w3 & Hclone).
  unfold bind at 1 in Hrun. rewrite Hclone in Hrun.
  cbn [world trace] in Hrun.
  remember (fst (subprocess_run lfs_command w2)) as lfs eqn:Elfs.
  unfold bind at 1 in Hrun. rewrite convert_model_to_fp16_run in Hrun.
  cbn [world trace] in Hrun.
  remember (fp16_output_file name) as p eqn:Ep.
  destruct (subprocess_run (convert_command name p) w3)
    as [[rc out err|msg] w4] eqn:Hconv; cbn [fst snd] in Hrun;
    unfold convert_result in Hrun.
  2:{ injection Hrun as <- <-.
      exists (t0 ++ src ++ clone_events url lfs clone
                ++ convert_events name p (Failed msg)).
      split; [cbn [trace]; now rewrite <- !app_assoc|].
      subst t0 p. eapply run_convert_raised; eauto. }
  (* the method code *)
  remember (trace st ++ t0 ++ src ++ clone_events url lfs clone
               ++ convert_events name p (Exited rc out err)) as t4 eqn:Et4.
  replace (((trace st ++ t0 ++ src) ++ clone_events url lfs clone)
             ++ convert_events name p (Exited rc out err))
    with t4 in Hrun by (rewrite Et4; now rewrite <- !app_assoc).
  destruct (2 <? length argv)%nat eqn:Hargv.
  - apply Nat.ltb_lt in Hargv.
    unfold bind at 1, ret at 1 in Hrun.
    rewrite quantize_stage_run in Hrun. cbn [world trace] in Hrun. injection Hrun as <- <-.
    eexists. split.
    + cbn [trace]. rewrite Et4, <- !app_assoc. reflexivity.
    + change (quantize_events ?c ?m ?s) with ([] ++ quantize_events c m s).
      subst t0 p. eapply run_quantize; eauto. now constructor.
  - apply Nat.ltb_ge in Hargv.
    unfold bind at 1 in Hrun. unfold bind at 1 in Hrun.
    unfold bind at 1 in Hrun.
    unfold print at 1, emit at 1 in Hrun.
    cbn [world trace] in Hrun.
    rewrite for_each_print_catalog in Hrun.
    cbn [world trace] in Hrun.
    unfold input at 1 in Hrun. cbn [world trace] in Hrun.
    destruct (console_input method_prompt w4) as [[line|] w5].
    + rewrite quantize_stage_run in Hrun. cbn [world trace] in Hrun.
      injection Hrun as <- <-.
      eexists (t0 ++ src ++ clone_events url lfs clone
                 ++ convert_events name p (Exited rc out err)
                 ++ (catalog_events ++ [Input method_prompt (Some line)])
                 ++ quantize_events _ line _).
      split.
      * cbn [trace]. rewrite Et4. unfold catalog_events, Printed.
        rewrite <- !app_assoc. reflexivity.
      * subst t0 p. eapply run_quantize; eauto. now constructor.
    + injection Hrun as <- <-.
      exists (t0 ++ src ++ clone_events url lfs clone
                ++ convert_events name p (Exited rc out err)
                ++ catalog_events ++ [Input method_prompt None]).
      split.
      * cbn [trace]. rewrite Et4. unfold catalog_events, Printed.
        rewrite <- !app_assoc. reflexivity.
      * subst t0 p. eapply run_no_method; eauto.
Qed.

End Stages.

(** ** Calls of each stage *)

Section Calls.

Context {W : Type} `{World W} `{CaseOps}.

Lemma in_calls (e : event) (tr : list event) :
  is_call e = true -> In e tr <-> In e (calls tr).
Proof.
  intros He. unfold calls. rewrite filter_In. tauto.
Qed.

Lemma calls_app (xs ys : list event) : calls (xs ++ ys) = calls xs ++ calls ys.
Proof. apply filter_app. Qed.

Lemma calls_stdout (lines : list string) : calls (map Stdout lines) = [].
Proof. induction lines as [|line rest IH]; [reflexivity | exact IH]. Qed.

Lemma calls_printed {A : Type} (f : A -> string) (xs : list A) :
  calls (map (fun x => Printed (f x)) xs) = [].
Proof. induction xs as [|x rest IH]; [reflexivity | exact IH]. Qed.

Lemma calls_login (token raised : option string) :
  calls (login_events token raised)
  = Getenv "HF_TOKEN" token ::
    if truthy token then [Login (str_opt token) raised] else [].
Proof. unfold login_events. now destruct (truthy token). Qed.

Lemma calls_clone (url : string) (lfs : outcome)
  (clone : list string * status) :
  calls (clone_events url lfs clone)
  = Run lfs_command lfs ::
    match lfs with
    | Exited returncode _ _ =>
        if (returncode =? 0)%Z
        then [Popen (clone_command url) (fst clone) (snd clone)]
        else []
    | Failed _ => []
    end.
Proof.
  unfold clone_events. destruct lfs as [rc out err|msg]; [|reflexivity].
  destruct (rc =? 0)%Z; [|reflexivity].
  cbn [calls filter is_call Printed].
  change (filter is_call ?l) with (calls l).
  now rewrite calls_app, calls_stdout.
Qed.

Lemma calls_convert (name path : string) (conv : outcome) :
  calls (convert_events name path conv) = [Run (convert_command name path) conv].
Proof.
  unfold convert_events. destruct conv as [rc out err|msg]; [|reflexivity].
  now destruct (rc =? 0)%Z.
Qed.

Lemma calls_catalog : calls catalog_events = [].
Proof.
  unfold catalog_events. cbn [calls filter is_call Printed].
  apply (calls_printed catalog_line).
Qed.

Lemma calls_quantize (cmd method : string) (s : status) :
  calls (quantize_events cmd method s) = [Shell cmd s].
Proof.
  unfold quantize_events. destruct s as [rc|msg]; [|reflexivity].
  now destruct (rc =? 0)%Z.
Qed.

End Calls.

(** ** Consequences of the run shapes *)

(** Normalises a hypothesis [In e tr], for a call [e] and a trace built
    from stage events, to a disjunction over the calls of the trace. *)
Ltac to_calls Hin :=
  apply in_calls in Hin; [|reflexivity];
  rewrite ?calls_app, ?calls_login, ?calls_clone, ?calls_convert,
    ?calls_catalog, ?calls_quantize in Hin;
  cbn [calls filter is_call app] in Hin.

(** Finds an event at the head of one of the appended stages. *)
Ltac find_in :=
  match goal with
  | |- In _ (_ ++ _) => apply in_or_app; first [left; find_in | right; find_in]
  | |- In _ (_ :: _) => first [left; reflexivity | right; find_in]
  | |- In _ _ => left; reflexivity
  end.

(** Splits [In e (x :: if b then ys else zs ++ ...)] into its cases and
    discharges those that equate different calls. *)
Ltac in_cases Hin :=
  repeat match type of Hin with
    | In _ (_ ++ _) => apply in_app_or in Hin
    | In _ (if ?b then _ else _) => destruct b
    | In _ (match ?o with Exited _ _ _ => _ | Failed _ => _ end) =>
        destruct o
    | In _ (_ :: _) => destruct Hin as [Hin|Hin]
    | In _ [] => destruct Hin
    | _ \/ _ => destruct Hin as [Hin|Hin]
    | _ = _ => first [discriminate Hin | fail 1]
    end.

Section Shapes.

Context {W : Type} `{World W} `{CaseOps}.

Lemma block_in_trace {A : Type} (a b block c d : list A) :
  a ++ b ++ c ++ block ++ d = (a ++ b ++ c) ++ block ++ d.
Proof. now rewrite <- !app_assoc. Qed.

(** A converter call that exited is followed by the method stage, and
    the quantizer is invoked with the method supplied. *)
Lemma converted_run (argv : list string) (token : option string)
  (r : result unit) (tr : list event) (name path out err : string) (rc : Z) :
  main_run argv token r tr ->
  In (Run (convert_command name path) (Exited rc out err)) tr ->
  path = fp16_output_file name /\
  ((2 < length argv)%nat \/ exists answer, In (Input method_prompt answer) tr) /\
  forall method,
    method_given argv tr method ->
    exists s,
      In (Shell (quantize_command path (qtype name method) method) s) tr.
Proof.
  intros Hshape Hconv.
  destruct Hshape as
    [raised Hargv
    | raised url src name' lfs clone msg Hsrc Hname
    | raised url src name' lfs clone rc' out' err' Hsrc Hname Hargv
    | raised url src name' lfs clone rc' out' err' method' msrc s
        Hsrc Hname Hmsrc].
  - to_calls Hconv. in_cases Hconv.
  - destruct Hsrc; to_calls Hconv; in_cases Hconv.
  - assert (Hid : name = name' /\ path = fp16_output_file name').
    { destruct Hsrc; to_calls Hconv; in_cases Hconv;
        injection Hconv as <- <- _ _ _; now split. }
    destruct Hid as [<- ->]. split; [reflexivity|]. split.
    + right. exists None. find_in.
    + intros method [[Hlen _] | [_ Hin]]; [lia|].
      destruct Hsrc; to_calls Hin; in_cases Hin.
  - assert (Hid : name = name' /\ path = fp16_output_file name').
    { destruct Hsrc, Hmsrc; to_calls Hconv; in_cases Hconv;
        injection Hconv as <- <- _ _ _; now split. }
    destruct Hid as [<- ->]. split; [reflexivity|]. split.
    + destruct Hmsrc as [Hlen | line Hlen]; [now left|].
      right. exists (Some line). find_in.
    + intros method Hgiven.
      assert (Hm : method = method').
      { destruct Hmsrc as [Hlen | line Hlen];
          destruct Hgiven as [[Hlen' Hnth] | [Hlen' Hin]];
          try lia; [now symmetry|].
        destruct Hsrc; to_calls Hin; in_cases Hin;
          now injection Hin as ->. }
      subst method'. exists s. find_in.
Qed.

End Shapes.

(** ** Failures that do not stop the pipeline *)

Section Failures.

Context {W : Type} `{World W} `{CaseOps}.


(** A run that received its reference invoked the large-file-storage
    initialisation and the converter. *)
Lemma referenced_run (argv : list string) (token : option string)
  (r : result unit) (tr : list event) (url : string) :
  main_run argv token r tr ->
  url_given argv tr url ->
  exists lfs name conv,
    model_name_of url = Some name /\
    In (Run lfs_command lfs) tr /\
    In (Run (convert_command name (fp16_output_file name)) conv) tr.
Proof.
  intros Hshape Hgiven.
  destruct Hshape as
    [raised Hargv
    | raised url' src name' lfs clone msg Hsrc Hname
    | raised url' src name' lfs clone rc' out' err' Hsrc Hname Hargv
    | raised url' src name' lfs clone rc' out' err' method' msrc s
        Hsrc Hname Hmsrc].
  - destruct Hgiven as [[Hlen _] | [_ Hin]]; [lia|].
    to_calls Hin. in_cases Hin.
  - assert (Hu : url = url').
    { destruct Hsrc as [Hlen | line Hlen];
        destruct Hgiven as [[Hlen' Hnth] | [Hlen' Hin]];
        try lia; [now symmetry|].
      to_calls Hin; in_cases Hin; now injection Hin as ->. }
    subst url'. exists lfs, name', (Failed msg).
    split; [assumption|]. split; find_in.
  - assert (Hu : url = url').
    { destruct Hsrc as [Hlen | line Hlen];
        destruct Hgiven as [[Hlen' Hnth] | [Hlen' Hin]];
        try lia; [now symmetry|].
      to_calls Hin; in_cases Hin; now injection Hin as ->. }
    subst url'. exists lfs, name', (Exited rc' out' err').
    split; [assumption|]. split; find_in.
  - assert (Hu : url = url').
    { destruct Hsrc as [Hlen | line Hlen];
        destruct Hgiven as [[Hlen' Hnth] | [Hlen' Hin]];
        try lia; [now symmetry|].
      destruct Hmsrc; to_calls Hin; in_cases Hin; now injection Hin as ->. }
    subst url'. exists lfs, name', (Exited rc' out' err').
    split; [assumption|]. split; find_in.
Qed.



End Failures.

(** ** Paths and command lines *)

Section Commands.

Context {W : Type} `{World W} `{CaseOps}.

(** The subprocess calls of a run: the large-file-storage initialisation,
    the converter on the Model Name of the reference supplied, and the
    quantizer on the method supplied. *)
Lemma run_commands (argv : list string) (token : option string)
  (r : result unit) (tr : list event) :
  main_run argv token r tr ->
  exists name,
    (forall url, url_given argv tr url -> model_name_of url = Some name) /\
    (forall a o,
        In (Run a o) tr ->
        (exists url, url_given argv tr url) /\
        (a = lfs_command \/ a = convert_command name (fp16_output_file name)))
    /\
    (forall cmd s,
        In (Shell cmd s) tr ->
        exists method,
          method_given argv tr method /\
          cmd = quantize_command (fp16_output_file name) (qtype name method)
                  method).
Proof.
  intros Hshape.
  destruct Hshape as
    [raised Hargv
    | raised url src name lfs clone msg Hsrc Hname
    | raised url src name lfs clone rc' out' err' Hsrc Hname Hargv
    | raised url src name lfs clone rc' out' err' method msrc s'
        Hsrc Hname Hmsrc].
  - exists EmptyString. split; [|split].
    + intros url [[Hlen _] | [_ Hin]]; [lia|]. to_calls Hin. in_cases Hin.
    + intros a o Hin. to_calls Hin. in_cases Hin.
    + intros cmd s Hin. to_calls Hin. in_cases Hin.
  - match goal with |- context [url_given argv ?t] => set (tr := t) end.
    assert (Hurl : url_given argv tr url).
    { destruct Hsrc as [Hlen | line Hlen];
        [left; now split | right; split; [assumption | subst tr; find_in]]. }
    exists name. split; [|split].
    + intros url' Hgiven. enough (url' = url) by now subst.
      subst tr.
      destruct Hsrc as [Hlen | line Hlen];
        destruct Hgiven as [[Hlen' Hnth] | [Hlen' Hin]];
        try lia; [now symmetry|].
      to_calls Hin; in_cases Hin; now injection Hin as ->.
    + intros a o Hin. split; [now exists url|]. subst tr.
      destruct Hsrc; to_calls Hin; in_cases Hin; injection Hin as <- _;
        [now left | now right | now left | now right].
    + intros cmd s Hin. subst tr.
      destruct Hsrc; to_calls Hin; in_cases Hin.
  - match goal with |- context [url_given argv ?t] => set (tr := t) end.
    assert (Hurl : url_given argv tr url).
    { destruct Hsrc as [Hlen | line Hlen];
        [left; now split | right; split; [assumption | subst tr; find_in]]. }
    exists name. split; [|split].
    + intros url' Hgiven. enough (url' = url) by now subst.
      subst tr.
      destruct Hsrc as [Hlen | line Hlen];
        destruct Hgiven as [[Hlen' Hnth] | [Hlen' Hin]];
        try lia; [now symmetry|].
      to_calls Hin; in_cases Hin; now injection Hin as ->.
    + intros a o Hin. split; [now exists url|]. subst tr.
      destruct Hsrc; to_calls Hin; in_cases Hin; injection Hin as <- _;
        [now left | now right | now left | now right].
    + intros cmd s Hin. subst tr.
      destruct Hsrc; to_calls Hin; in_cases Hin.
  - match goal with |- context [url_given argv ?t] => set (tr := t) end.
    assert (Hurl : url_given argv tr url).
    { destruct Hsrc as [Hlen | line Hlen];
        [left; now split | right; split; [assumption | subst tr; find_in]]. }
    assert (Hmethod : method_given argv tr method).
    { destruct Hmsrc as [Hlen | line Hlen];
        [left; now split | right; split; [assumption | subst tr; find_in]]. }
    exists name. split; [|split].
    + intros url' Hgiven. enough (url' = url) by now subst.
      subst tr.
      destruct Hsrc as [Hlen | line Hlen];
        destruct Hgiven as [[Hlen' Hnth] | [Hlen' Hin]];
        try lia; [now symmetry|].
      destruct Hmsrc; to_calls Hin; in_cases Hin; now injection Hin as ->.
    + intros a o Hin. split; [now exists url|]. subst tr.
      destruct Hsrc, Hmsrc; to_calls Hin; in_cases Hin;
        injection Hin as <- _; solve [now left | now right].
    + intros cmd s Hin. exists method. split; [assumption|]. subst tr.
      destruct Hsrc, Hmsrc; to_calls Hin; in_cases Hin;
        now injection Hin as <- _.
Qed.

(** C2: in a run that has its reference, with Model Name [n], the
    converter is invoked with [--outfile n/lower(n).fp16.bin]; once it has
    exited, every method code [m] supplied puts that path and
    [n/lower(n).UPPER(m).gguf] on the quantizer's command line; and no
    other converter or quantizer command line occurs in the run. *)
Theorem artifact_paths (argv : list string) (w : W) (r : result unit)
  (st' : state W) (url name : string) :
  main argv (start w) = (r, st') ->
  url_given argv (trace st') url ->
  model_name_of url = Some name ->
  (exists conv,
      In (Run ["python"; "llama.cpp/convert.py"; name; "--outtype"; "f16";
               "--outfile"; (name ++ "/" ++ lower name ++ ".fp16.bin")%string]
            conv)
         (trace st') /\
      forall rc out err method,
        conv = Exited rc out err ->
        method_given argv (trace st') method ->
        exists s,
          In (Shell ("./llama.cpp/quantize "
                       ++ (name ++ "/" ++ lower name ++ ".fp16.bin") ++ " "
                       ++ (name ++ "/" ++ lower name ++ "." ++ upper method
                             ++ ".gguf") ++ " " ++ method)%string s)
             (trace st')) /\
  (forall a o,
      In (Run a o) (trace st') ->
      a = lfs_command \/
      a = ["python"; "llama.cpp/convert.py"; name; "--outtype"; "f16";
           "--outfile"; (name ++ "/" ++ lower name ++ ".fp16.bin")%string]) /\
  (forall cmd s,
      In (Shell cmd s) (trace st') ->
      exists method,
        method_given argv (trace st') method /\
        cmd = ("./llama.cpp/quantize "
                 ++ (name ++ "/" ++ lower name ++ ".fp16.bin") ++ " "
                 ++ (name ++ "/" ++ lower name ++ "." ++ upper method
                       ++ ".gguf") ++ " " ++ method)%string).
Proof.
  intros Hmain Hgiven Hname.
  destruct (main_runs _ _ _ _ Hmain) as (tr & Htr & Hshape).
  cbn [start trace app] in Htr. rewrite Htr in *. clear Htr.
  destruct (run_commands _ _ _ _ Hshape) as (name' & Hnames & Hruns & Hshells).
  assert (name' = name) as ->
    by (specialize (Hnames url Hgiven); congruence).
  split; [|split].
  - destruct (referenced_run _ _ _ _ _ Hshape Hgiven)
      as (lfs & name' & conv & Hname' & _ & Hconv).
    assert (name' = name) as -> by congruence.
    exists conv. split; [exact Hconv|].
    intros rc out err method -> Hm.
    now destruct (converted_run _ _ _ _ _ _ _ _ _ Hshape Hconv)
      as (_ & _ & Hquant); apply Hquant.
  - intros a o Hin. now destruct (Hruns a o Hin) as [_ Ha].
  - intros cmd s Hin. destruct (Hshells cmd s Hin) as (method & Hm & ->).
    now exists method.
Qed.

(** C5: the quantizer is run through the shell on the line
    [./llama.cpp/quantize <fp16_path> <output_path> <method>], the three
    strings being interpolated as they are; whatever method code is
    supplied is passed on. *)
Theorem quantizer_command_line (argv : list string) (w : W)
  (r : result unit) (st' : state W) :
  main argv (start w) = (r, st') ->
  (forall cmd s,
      In (Shell cmd s) (trace st') ->
      exists name method,
        method_given argv (trace st') method /\
        cmd = ("./llama.cpp/quantize " ++ fp16_output_file name ++ " "
                 ++ qtype name method ++ " " ++ method)%string) /\
  (forall name path rc out err method,
      In (Run (convert_command name path) (Exited rc out err)) (trace st') ->
      method_given argv (trace st') method ->
      exists s,
        In (Shell ("./llama.cpp/quantize " ++ path ++ " "
                     ++ qtype name method ++ " " ++ method)%string s)
           (trace st')).
Proof.
  intros Hmain.
  destruct (main_runs _ _ _ _ Hmain) as (tr & Htr & Hshape).
  cbn [start trace app] in Htr. rewrite Htr. clear Htr.
  split.
  - intros cmd s Hin.
    destruct (run_commands _ _ _ _ Hshape) as (name & _ & _ & Hshells).
    destruct (Hshells cmd s Hin) as (method & Hgiven & ->).
    now exists name, method.
  - intros name path rc out err method Hconv Hgiven.
    destruct (converted_run _ _ _ _ _ _ _ _ _ Hshape Hconv)
      as (_ & _ & Hquant).
    exact (Hquant method Hgiven).
Qed.

(** C8 (amended): when neither the lowercase form of the Model Name nor
    the uppercase form of the method code holds a ['/'], both paths have
    the Model Name as their directory and a file name that starts with
    its lowercase form; the converter receives the Model Name itself,
    which is the last segment of the reference as supplied. *)
Theorem name_case_forms :
  (forall name method : string,
      contains slash name = false ->
      contains slash (lower name) = false ->
      contains slash (upper method) = false ->
      split slash (fp16_output_file name)
      = [name; (lower name ++ ".fp16.bin")%string] /\
      split slash (qtype name method)
      = [name; (lower name ++ "." ++ upper method ++ ".gguf")%string])
  /\
  (forall (argv : list string) (w : W) (r : result unit) (st' : state W)
          (a : list string) (o : outcome),
      main argv (start w) = (r, st') ->
      In (Run a o) (trace st') ->
      a <> lfs_command ->
      exists url name,
        url_given argv (trace st') url /\
        index_last (split slash url) = Some name /\
        a = ["python"; "llama.cpp/convert.py"; name; "--outtype"; "f16";
             "--outfile"; fp16_output_file name]).
Proof.
  split.
  - intros name method Hname Hlower Hupper.
    unfold fp16_output_file, qtype.
    change ("/" ++ ?rest)%string with (String slash rest).
    rewrite !split_cons_clean by assumption.
    rewrite !split_without_sep; [now split | |].
    + rewrite !contains_app, Hlower, Hupper. reflexivity.
    + rewrite contains_app, Hlower. reflexivity.
  - intros argv w r st' a o Hmain Hin Hnot.
    destruct (main_runs _ _ _ _ Hmain) as (tr & Htr & Hshape).
    cbn [start trace app] in Htr. rewrite Htr in *. clear Htr.
    destruct (run_commands _ _ _ _ Hshape) as (name & Hnames & Hruns & _).
    destruct (Hruns a o Hin) as [[url Hurl] [Ha | Ha]]; [contradiction|].
    exists url, name. split; [assumption|]. split; [|assumption].
    rewrite <- extract_model_id_last_segment. now apply Hnames.
Qed.

(** C6: the catalog has 14 entries; a run without a second command-line
    argument that asks for the method has printed, just before asking, the
    heading and one line [<code>: <description>] per entry, in the
    catalog's order; it asks once the converter has exited. *)
Theorem catalog_listing :
  length QUANTIZATION_METHODS = 14%nat /\
  map fst QUANTIZATION_METHODS
  = ["q2_k"; "q3_k_l"; "q3_k_m"; "q3_k_s"; "q4_0"; "q4_1"; "q4_k_m";
     "q4_k_s"; "q5_0"; "q5_1"; "q5_k_m"; "q5_k_s"; "q6_k"; "q8_0"] /\
  (forall (argv : list string) (w : W) (r : result unit) (st' : state W)
          (answer : option string),
      main argv (start w) = (r, st') ->
      (length argv <= 2)%nat ->
      In (Input method_prompt answer) (trace st') ->
      exists pre post,
        trace st'
        = pre ++
          Printed "Please choose a quantization method from the following options:"
          :: map (fun entry => Printed (fst entry ++ ": " ++ snd entry))
               QUANTIZATION_METHODS
          ++ Input method_prompt answer :: post) /\
  (forall (argv : list string) (w : W) (r : result unit) (st' : state W)
          (name path : string) (rc : Z) (out err : string),
      main argv (start w) = (r, st') ->
      (length argv <= 2)%nat ->
      In (Run (convert_command name path) (Exited rc out err)) (trace st') ->
      exists answer, In (Input method_prompt answer) (trace st')).
Proof.
  split; [reflexivity|]. split; [reflexivity|]. split.
  2:{ intros argv w r st' name path rc out err Hmain Hargv Hconv.
      destruct (main_runs _ _ _ _ Hmain) as (tr & Htr & Hshape).
      cbn [start trace app] in Htr. rewrite Htr in *. clear Htr.
      destruct (converted_run _ _ _ _ _ _ _ _ _ Hshape Hconv)
        as (_ & [Hlen | Hask] & _); [lia | exact Hask]. }
  intros argv w r st' answer Hmain Hargv Hin.
  destruct (main_runs _ _ _ _ Hmain) as (tr & Htr & Hshape).
  cbn [start trace app] in Htr. rewrite Htr in *. clear Htr.
  change (Printed _ :: map _ QUANTIZATION_METHODS) with catalog_events.
  destruct Hshape as
    [raised Hlen
    | raised url src name lfs clone msg Hsrc Hname
    | raised url src name lfs clone rc' out' err' Hsrc Hname Hlen
    | raised url src name lfs clone rc' out' err' method msrc s'
        Hsrc Hname Hmsrc].
  - to_calls Hin. in_cases Hin.
  - destruct Hsrc; to_calls Hin; in_cases Hin.
  - assert (answer = None) as ->.
    { destruct Hsrc; to_calls Hin; in_cases Hin; now injection Hin as <-. }
    eexists _, []. rewrite block_in_trace.
    rewrite (app_assoc _ (convert_events _ _ _)). reflexivity.
  - destruct Hmsrc as [Hlen | line Hlen]; [lia|].
    assert (answer = Some line) as ->.
    { destruct Hsrc; to_calls Hin; in_cases Hin; now injection Hin as <-. }
    eexists _, _. rewrite <- (app_assoc catalog_events).
    rewrite block_in_trace.
    rewrite (app_assoc _ (convert_events _ _ _)). reflexivity.
Qed.

End Commands.

(** ** Concrete runs *)

Ltac pick := repeat first [left; reflexivity | right].

(** Refutes [Hin : In e tr] for a closed trace [tr] none of whose events
    has the constructor of [e]. *)
Ltac absent Hin :=
  vm_compute in Hin;
  repeat (destruct Hin as [Hin|Hin]; [discriminate Hin|]);
  exact Hin.

Example paths_example :
  fp16_output_file "Foo-7B" = "Foo-7B/foo-7b.fp16.bin" /\
  qtype "Foo-7B" "q4_k_m" = "Foo-7B/foo-7b.Q4_K_M.gguf".
Proof. split; reflexivity. Qed.

Example model_name_example :
  model_name_of "https://host/org/model-name" = Some "model-name".
Proof. reflexivity. Qed.

Lemma artifact_paths_witness :
  url_given [script_path; demo_url; "q4_k_m"]
    (run_trace [script_path; demo_url; "q4_k_m"] (all_succeed [])) demo_url /\
  model_name_of demo_url = Some "Foo-7B" /\
  method_given [script_path; demo_url; "q4_k_m"]
    (run_trace [script_path; demo_url; "q4_k_m"] (all_succeed [])) "q4_k_m" /\
  In (Run ["python"; "llama.cpp/convert.py"; "Foo-7B"; "--outtype"; "f16";
           "--outfile"; "Foo-7B/foo-7b.fp16.bin"] (Exited 0 "" ""))
     (run_trace [script_path; demo_url; "q4_k_m"] (all_succeed [])) /\
  exists s,
    In (Shell "./llama.cpp/quantize Foo-7B/foo-7b.fp16.bin Foo-7B/foo-7b.Q4_K_M.gguf q4_k_m"
          s)
       (run_trace [script_path; demo_url; "q4_k_m"] (all_succeed [])).
Proof.
  assert (Hgiven : url_given [script_path; demo_url; "q4_k_m"]
                     (run_trace [script_path; demo_url; "q4_k_m"]
                        (all_succeed [])) demo_url)
    by (left; split; [vm_compute; lia | reflexivity]).
  assert (Hmethod : method_given [script_path; demo_url; "q4_k_m"]
                      (run_trace [script_path; demo_url; "q4_k_m"]
                         (all_succeed [])) "q4_k_m")
    by (left; split; [vm_compute; lia | reflexivity]).
  assert (Hrun : main [script_path; demo_url; "q4_k_m"]
                   (start (all_succeed []))
                 = (run_result [script_path; demo_url; "q4_k_m"]
                      (all_succeed []),
                    run_state [script_path; demo_url; "q4_k_m"]
                      (all_succeed [])))
    by (vm_compute; reflexivity).
  split; [exact Hgiven|]. split; [reflexivity|]. split; [exact Hmethod|].
  destruct (proj1 (@artifact_paths script scripted ascii_case _ _ _ _
                     demo_url "Foo-7B" Hrun Hgiven eq_refl))
    as (conv & Hconv & Hquant).
  assert (Hexit : conv = Exited 0 "" "").
  { pose proof Hconv as Hin. vm_compute in Hin.
    repeat (destruct Hin as [Hin|Hin];
            [first [discriminate Hin | now injection Hin as <-]|]).
    destruct Hin. }
  subst conv. split; [exact Hconv|].
  exact (Hquant 0%Z "" "" "q4_k_m" eq_refl Hmethod).
Defined.







Lemma quantizer_command_line_witness :
  ~ In "not_in_catalog" (map fst QUANTIZATION_METHODS) /\
  In (Run (convert_command "Foo-7B" "Foo-7B/foo-7b.fp16.bin") (Exited 0 "" ""))
     (run_trace [script_path; demo_url; "not_in_catalog"] (all_succeed [])) /\
  method_given [script_path; demo_url; "not_in_catalog"]
    (run_trace [script_path; demo_url; "not_in_catalog"] (all_succeed []))
    "not_in_catalog" /\
  exists s,
    In (Shell "./llama.cpp/quantize Foo-7B/foo-7b.fp16.bin Foo-7B/foo-7b.NOT_IN_CATALOG.gguf not_in_catalog" s)
       (run_trace [script_path; demo_url; "not_in_catalog"] (all_succeed [])).
Proof.
  split; [intros Hin; absent Hin|].
  assert (Hconv : In (Run (convert_command "Foo-7B" "Foo-7B/foo-7b.fp16.bin")
                        (Exited 0 "" ""))
                     (run_trace [script_path; demo_url; "not_in_catalog"]
                        (all_succeed [])))
    by (vm_compute; pick).
  assert (Hgiven : method_given [script_path; demo_url; "not_in_catalog"]
                     (run_trace [script_path; demo_url; "not_in_catalog"]
                        (all_succeed [])) "not_in_catalog")
    by (left; split; [vm_compute; lia | reflexivity]).
  split; [exact Hconv|]. split; [exact Hgiven|].
  assert (Hrun : main [script_path; demo_url; "not_in_catalog"]
                   (start (all_succeed []))
                 = (run_result [script_path; demo_url; "not_in_catalog"]
                      (all_succeed []),
                    run_state [script_path; demo_url; "not_in_catalog"]
                      (all_succeed [])))
    by (vm_compute; reflexivity).
  exact (proj2 (@quantizer_command_line script scripted ascii_case _ _ _ _ Hrun)
           "Foo-7B" "Foo-7B/foo-7b.fp16.bin" 0%Z "" "" "not_in_catalog"
           Hconv Hgiven).
Defined.

Lemma name_case_forms_witness :
  (contains slash "Foo-7B" = false /\
   contains slash (lower "Foo-7B") = false /\
   contains slash (upper "q4_k_m") = false) /\
  (split slash (fp16_output_file "Foo-7B") = ["Foo-7B"; "foo-7b.fp16.bin"] /\
   split slash (qtype "Foo-7B" "q4_k_m") = ["Foo-7B"; "foo-7b.Q4_K_M.gguf"]) /\
  In (Run (convert_command "Foo-7B" "Foo-7B/foo-7b.fp16.bin") (Exited 0 "" ""))
     (run_trace [script_path; demo_url; "q4_k_m"] (all_succeed [])) /\
  exists url name,
    url_given [script_path; demo_url; "q4_k_m"]
      (run_trace [script_path; demo_url; "q4_k_m"] (all_succeed [])) url /\
    index_last (split slash url) = Some name /\
    convert_command "Foo-7B" "Foo-7B/foo-7b.fp16.bin"
    = ["python"; "llama.cpp/convert.py"; name; "--outtype"; "f16";
       "--outfile"; fp16_output_file name].
Proof.
  destruct (@name_case_forms script scripted ascii_case) as [Hpaths Hdriver].
  split; [repeat split|]. split.
  - apply (Hpaths "Foo-7B" "q4_k_m"); reflexivity.
  - assert (Hin : In (Run (convert_command "Foo-7B" "Foo-7B/foo-7b.fp16.bin")
                        (Exited 0 "" ""))
                     (run_trace [script_path; demo_url; "q4_k_m"]
                        (all_succeed [])))
      by (vm_compute; pick).
    split; [exact Hin|].
    assert (Hrun : main [script_path; demo_url; "q4_k_m"]
                     (start (all_succeed []))
                   = (run_result [script_path; demo_url; "q4_k_m"]
                        (all_succeed []),
                      run_state [script_path; demo_url; "q4_k_m"]
                        (all_succeed [])))
      by (vm_compute; reflexivity).
    apply (Hdriver _ _ _ _ _ (Exited 0 "" "") Hrun Hin). discriminate.
Defined.

(** A method code with a ['/'] is accepted like any other: the final path
    then has three components, its directory is no longer the Model Name
    and its file name no longer holds the lowercase name. *)
Lemma name_case_forms_counterexample :
  split slash (qtype "Foo-7B" "a/b") = ["Foo-7B"; "foo-7b.A"; "B.gguf"] /\
  run_result [script_path; demo_url; "a/b"] (all_succeed []) = Normal tt /\
  In (Shell "./llama.cpp/quantize Foo-7B/foo-7b.fp16.bin Foo-7B/foo-7b.A/B.gguf a/b"
        (ExitStatus 0))
     (run_trace [script_path; demo_url; "a/b"] (all_succeed [])).
Proof.
  split; [reflexivity|]. split; [vm_compute; reflexivity|].
  vm_compute; pick.
Qed.

Lemma catalog_listing_witness :
  (length [script_path; demo_url] <= 2)%nat /\
  In (Input method_prompt (Some "q4_k_m"))
     (run_trace [script_path; demo_url] (all_succeed ["q4_k_m"])) /\
  exists pre post,
    run_trace [script_path; demo_url] (all_succeed ["q4_k_m"])
    = pre ++
      Printed "Please choose a quantization method from the following options:"
      :: map (fun entry => Printed (fst entry ++ ": " ++ snd entry))
           QUANTIZATION_METHODS
      ++ Input method_prompt (Some "q4_k_m") :: post.
Proof.
  split; [vm_compute; lia|].
  assert (Hin : In (Input method_prompt (Some "q4_k_m"))
                   (run_trace [script_path; demo_url]
                      (all_succeed ["q4_k_m"])))
    by (vm_compute; pick).
  split; [exact Hin|].
  assert (Hrun : main [script_path; demo_url] (start (all_succeed ["q4_k_m"]))
                 = (run_result [script_path; demo_url]
                      (all_succeed ["q4_k_m"]),
                    run_state [script_path; demo_url]
                      (all_succeed ["q4_k_m"])))
    by (vm_compute; reflexivity).
  apply (proj1 (proj2 (proj2 (@catalog_listing script scripted ascii_case)))
           _ _ _ _ _ Hrun); [vm_compute; lia | exact Hin].
Defined.

(** The calls of a run in which every step succeeds. *)
Example successful_run_calls :
  run_result [script_path; demo_url; "q4_k_m"] (all_succeed []) = Normal tt /\
  calls (run_trace [script_path; demo_url; "q4_k_m"] (all_succeed []))
  = [Getenv "HF_TOKEN" None;
     Run ["git"; "lfs"; "install"] (Exited 0 "" "");
     Popen ["git"; "clone"; "https://huggingface.co/org/Foo-7B"]
       ["Cloning into 'Foo-7B'..."] (ExitStatus 0);
     Run ["python"; "llama.cpp/convert.py"; "Foo-7B"; "--outtype"; "f16";
          "--outfile"; "Foo-7B/foo-7b.fp16.bin"] (Exited 0 "" "");
     Shell "./llama.cpp/quantize Foo-7B/foo-7b.fp16.bin Foo-7B/foo-7b.Q4_K_M.gguf q4_k_m"
       (ExitStatus 0)].
Proof. split; vm_compute; reflexivity. Qed.

(** * Further properties *)

(** ** The Identifier Extractor on short and long references *)

Lemma string_app_assoc (a b c : string) :
  ((a ++ b) ++ c)%string = (a ++ b ++ c)%string.
Proof. induction a as [|x a IH]; cbn; [reflexivity | now rewrite IH]. Qed.

Lemma join_cons (sep x : string) (rest : list string) :
  rest <> [] -> join sep (x :: rest) = (x ++ sep ++ join sep rest)%string.
Proof. destruct rest; [congruence | reflexivity]. Qed.

Lemma join_split (sep : ascii) (s : string) :
  join (String sep EmptyString) (split sep s) = s.
Proof.
  induction s as [|c rest IH]; [reflexivity|].
  pose proof (split_nonempty sep rest) as Hne.
  cbn [split]. destruct (Ascii.eqb c sep) eqn:Hc.
  - apply Ascii.eqb_eq in Hc. subst c.
    rewrite join_cons by assumption. now rewrite IH.
  - destruct (split sep rest) as [|seg segs]; [congruence|].
    destruct segs as [|seg' segs'].
    + cbn [join] in *. now rewrite IH.
    + rewrite join_cons in * by discriminate.
      cbn [String.append]. cbn [String.append] in IH. now rewrite IH.
Qed.

Lemma join_app (sep : string) (xs ys : list string) :
  xs <> [] -> ys <> [] ->
  join sep (xs ++ ys) = (join sep xs ++ sep ++ join sep ys)%string.
Proof.
  induction xs as [|x rest IH]; [congruence|]. intros _ Hys.
  destruct rest as [|x' rest'].
  - destruct ys as [|y ys']; [congruence|]. reflexivity.
  - change (join sep ((x :: x' :: rest') ++ ys))
      with (x ++ sep ++ join sep ((x' :: rest') ++ ys))%string.
    rewrite IH by (assumption || discriminate).
    change (join sep (x :: x' :: rest'))
      with (x ++ sep ++ join sep (x' :: rest'))%string.
    rewrite !string_app_assoc. reflexivity.
Qed.

Lemma split_trailing (sep : ascii) (s : string) :
  split sep (s ++ String sep EmptyString) = split sep s ++ [EmptyString].
Proof.
  induction s as [|c rest IH].
  - cbn. now rewrite Ascii.eqb_refl.
  - cbn [String.append split]. rewrite IH.
    destruct (Ascii.eqb c sep); [reflexivity|].
    pose proof (split_nonempty sep rest) as Hne.
    now destruct (split sep rest).
Qed.

Lemma index_last_snoc {A : Type} (pre : list A) (x : A) :
  index_last (pre ++ [x]) = Some x.
Proof. unfold index_last. now rewrite rev_app_distr. Qed.

Lemma index_last_split {A : Type} (xs : list A) (x : A) :
  index_last xs = Some x -> exists pre, xs = pre ++ [x].
Proof.
  unfold index_last. intros Hlast.
  destruct (rev xs) as [|y rest] eqn:Hrev; [discriminate|].
  injection Hlast as ->. exists (rev rest).
  rewrite <- (rev_involutive xs), Hrev. reflexivity.
Qed.

(** X1: a reference with at most two segments (a bare [owner/name], or
    a name alone) is its own identifier. *)
Theorem extract_model_id_short (repository_url : string) :
  (length (split slash repository_url) <= 2)%nat ->
  extract_model_id repository_url = repository_url.
Proof.
  intros Hlen. unfold extract_model_id.
  rewrite slice_last_short by assumption.
  apply (join_split slash).
Qed.

Lemma extract_model_id_short_witness :
  (length (split slash "org/model-name") <= 2)%nat /\
  extract_model_id "org/model-name" = "org/model-name".
Proof.
  split; [vm_compute; lia|].
  apply (extract_model_id_short "org/model-name"). vm_compute; lia.
Defined.

(** X2: the identifier is a suffix of the reference, and what is cut off
    in front of it is empty or ends with ['/']. *)
Theorem extract_model_id_suffix (repository_url : string) :
  exists front,
    repository_url = (front ++ extract_model_id repository_url)%string /\
    (front = EmptyString \/
     exists before, front = (before ++ "/")%string).
Proof.
  unfold extract_model_id.
  set (parts := split slash repository_url).
  assert (Hparts : parts <> []) by apply split_nonempty.
  assert (Hkept : slice_last 2 parts <> [])
    by (apply slice_last_nonempty; [lia | assumption]).
  pose proof (join_split slash repository_url) as Hjoin.
  fold parts in Hjoin. unfold slice_last in *.
  rewrite <- (firstn_skipn (length parts - 2) parts) in Hjoin.
  destruct (firstn (length parts - 2) parts) as [|p ps] eqn:Hfront.
  - exists EmptyString. split; [now symmetry | now left].
  - rewrite join_app in Hjoin by (assumption || discriminate).
    exists (join "/" (p :: ps) ++ "/")%string. split.
    + rewrite string_app_assoc. now symmetry.
    + right. now exists (join "/" (p :: ps)).
Qed.

(** X3: the Model Name is the text after the last ['/'] of the reference
    (the whole reference when it has none), and contains no ['/']. *)
Theorem model_name_after_last_slash (repository_url : string) :
  exists name,
    model_name_of repository_url = Some name /\
    contains slash name = false /\
    (repository_url = name \/
     exists before, repository_url = (before ++ "/" ++ name)%string).
Proof.
  destruct (model_name_defined repository_url) as [name Hname].
  exists name. split; [assumption|].
  unfold model_name_of in Hname.
  rewrite extract_model_id_last_segment in Hname.
  destruct (index_last_split _ _ Hname) as [pre Hsplit].
  pose proof (split_segments_clean slash repository_url) as Hclean.
  pose proof (join_split slash repository_url) as Hjoin.
  rewrite Hsplit in Hclean, Hjoin.
  apply Forall_app in Hclean as [_ Hclean].
  apply Forall_inv in Hclean.
  split; [assumption|].
  destruct pre as [|p ps].
  - left. now symmetry.
  - right. exists (join "/" (p :: ps)).
    rewrite join_app in Hjoin by discriminate. now symmetry.
Qed.

(** X4: a reference that ends with ['/'] has the empty Model Name. *)
Theorem model_name_trailing_slash (repository_url : string) :
  model_name_of (repository_url ++ "/") = Some EmptyString.
Proof.
  unfold model_name_of. rewrite extract_model_id_last_segment.
  change "/"%string with (String slash EmptyString).
  rewrite split_trailing. apply index_last_snoc.
Qed.

(** ** The two artifact paths never coincide *)

Lemma append_cancel_l (a x y : string) :
  (a ++ x)%string = (a ++ y)%string -> x = y.
Proof.
  induction a as [|c a IH]; cbn; [trivial|].
  intros Heq. injection Heq as Heq. now apply IH.
Qed.

Lemma string_length_append (s t : string) :
  String.length (s ++ t) = (String.length s + String.length t)%nat.
Proof. induction s as [|c s IH]; cbn; [reflexivity | now rewrite IH]. Qed.

Section Paths.

Context `{CaseOps}.

(** X5: whatever the name and the method code, the final path string
    that [main] computes is never equal to the intermediate path string. *)
Theorem final_path_differs (name method : string) :
  qtype name method <> fp16_output_file name.
Proof.
  unfold qtype, fp16_output_file. intros Heq.
  do 3 apply append_cancel_l in Heq.
  cbn in Heq. injection Heq as Heq.
  pose proof (f_equal String.length Heq) as Hlen.
  rewrite string_length_append in Hlen. cbn in Hlen.
  destruct (upper method) as [|c1 [|c2 [|c3 [|c4 rest]]]];
    cbn in Hlen; try lia.
  discriminate Heq.
Qed.

End Paths.

(** ** The stages under other answers of the world *)

Section Behaviour.

Context {W : Type} `{World W} `{CaseOps}.

Lemma login_events_login (token raised : option string) (tok : string)
  (res : option string) :
  In (Login tok res) (login_events token raised) <->
  token = Some tok /\ tok <> EmptyString /\ res = raised.
Proof.
  unfold login_events. destruct token as [[|c t]|]; cbn.
  - split; [intros [Hin|[Hin|[]]]; discriminate | intros (Htok & Hne & _)].
    injection Htok as <-. now destruct Hne.
  - split.
    + intros [Hin|[Hin|[Hin|[]]]]; try discriminate.
      injection Hin as <- <-. now repeat split.
    + intros (Htok & _ & ->). injection Htok as <-. right. now left.
  - split; [intros [Hin|[Hin|[]]]; discriminate | intros (Htok & _)].
    discriminate.
Qed.

(** Every trace starts with the events of [hf_login], and no login is
    attempted after them. *)
Lemma login_first (argv : list string) (token : option string)
  (r : result unit) (tr : list event) :
  main_run argv token r tr ->
  exists raised rest,
    tr = login_events token raised ++ rest /\
    forall tok res, ~ In (Login tok res) rest.
Proof.
  intros Hshape.
  destruct Hshape as
    [raised Hargv
    | raised url src name lfs clone msg Hsrc Hname
    | raised url src name lfs clone rc' out' err' Hsrc Hname Hargv
    | raised url src name lfs clone rc' out' err' method msrc s'
        Hsrc Hname Hmsrc];
    exists raised; eexists; (split; [reflexivity|]); intros tok res Hin.
  - to_calls Hin. in_cases Hin.
  - destruct Hsrc; to_calls Hin; in_cases Hin.
  - destruct Hsrc; to_calls Hin; in_cases Hin.
  - destruct Hsrc, Hmsrc; to_calls Hin; in_cases Hin.
Qed.

(** X6: a login that raises is reported and [hf_login] returns normally;
    the trace of [main] starts with the attempt and its report, and the
    run goes on to the acquisition and the conversion once it has its
    reference. *)
Theorem login_failure_continues :
  (forall (st : state W) (tok msg : string) (w' : W),
      os_getenv "HF_TOKEN" (world st) = Some tok ->
      tok <> EmptyString ->
      hub_login tok (world st) = (Some msg, w') ->
      hf_login st
      = (Normal tt,
         mkState w'
           (trace st ++
            [Getenv "HF_TOKEN" (Some tok);
             Login tok (Some msg);
             Printed ("Failed to log in to Hugging Face: " ++ msg)])))
  /\
  (forall (argv : list string) (w : W) (r : result unit) (st' : state W)
          (tok msg : string),
      main argv (start w) = (r, st') ->
      In (Login tok (Some msg)) (trace st') ->
      (exists rest,
          trace st'
          = Getenv "HF_TOKEN" (Some tok) ::
            Login tok (Some msg) ::
            Printed ("Failed to log in to Hugging Face: " ++ msg) :: rest) /\
      forall url,
        url_given argv (trace st') url ->
        exists lfs name conv,
          model_name_of url = Some name /\
          In (Run lfs_command lfs) (trace st') /\
          In (Run (convert_command name (fp16_output_file name)) conv)
             (trace st')).
Proof.
  split.
  - intros [w tr] tok msg w' Htok Hne Hlogin.
    unfold hf_login, bind, getenv. cbn [world trace] in *. rewrite Htok.
    destruct tok as [|c t]; [now destruct Hne|]. cbn [truthy str_opt].
    unfold try_except, bind, login. cbn [world trace]. rewrite Hlogin.
    unfold print, emit, Printed. cbn [world trace].
    now rewrite <- !app_assoc.
  - intros argv w r st' tok msg Hmain Hin.
    destruct (main_runs _ _ _ _ Hmain) as (tr & Htr & Hshape).
    cbn [start trace app world] in Htr, Hshape. rewrite Htr in *. clear Htr.
    split.
    + destruct (login_first _ _ _ _ Hshape) as (raised & rest & -> & Hrest).
      apply in_app_or in Hin as [Hin | Hin]; [|now destruct (Hrest _ _ Hin)].
      apply login_events_login in Hin as (-> & Hne & <-).
      destruct tok as [|c t]; [now destruct Hne|].
      eexists. reflexivity.
    + intros url Hgiven. exact (referenced_run _ _ _ _ _ Hshape Hgiven).
Qed.

(** X7: [login] is called exactly when [HF_TOKEN] is set to a non-empty
    string, with that string; an empty value counts as absent. *)
Theorem login_only_with_token (argv : list string) (w : W)
  (r : result unit) (st' : state W) :
  main argv (start w) = (r, st') ->
  (forall tok res,
      In (Login tok res) (trace st') ->
      os_getenv "HF_TOKEN" w = Some tok /\ tok <> EmptyString) /\
  (forall tok,
      os_getenv "HF_TOKEN" w = Some tok ->
      tok <> EmptyString ->
      exists res, In (Login tok res) (trace st')).
Proof.
  intros Hmain.
  destruct (main_runs _ _ _ _ Hmain) as (tr & Htr & Hshape).
  cbn [start trace app world] in Htr, Hshape. rewrite Htr. clear Htr.
  destruct (login_first _ _ _ _ Hshape) as (raised & rest & -> & Hrest).
  split.
  - intros tok res Hin.
    apply in_app_or in Hin as [Hin | Hin]; [|now destruct (Hrest _ _ Hin)].
    apply login_events_login in Hin as (Htok & Hne & _). now split.
  - intros tok Htok Hne. exists raised. apply in_or_app. left.
    apply login_events_login. now repeat split.
Qed.

(** X8: [hf_login] and [clone_repository] never raise, whatever the world
    answers. *)
Theorem acquisition_never_raises :
  (forall st : state W, fst (hf_login st) = Normal tt) /\
  (forall (url : string) (st : state W),
      fst (clone_repository url st) = Normal tt).
Proof.
  split.
  - intros st. destruct (hf_login_run st) as (raised & w' & ->). reflexivity.
  - intros url st.
    destruct (clone_repository_run url st) as (clone & w' & ->). reflexivity.
Qed.

(** X9: when [git] cannot be run at all, [clone_repository] reports the
    error text, starts no clone and returns normally. *)
Theorem git_unavailable_reported (st : state W) (url msg : string) (w' : W) :
  subprocess_run lfs_command (world st) = (Failed msg, w') ->
  clone_repository url st
  = (Normal tt,
     mkState w'
       (trace st ++
        [Run lfs_command (Failed msg);
         Printed ("An error occurred: " ++ msg)])).
Proof.
  destruct st as [w tr]. intros Hrun.
  unfold clone_repository, try_except, bind, run_checked.
  cbn [world trace] in *. rewrite Hrun.
  unfold print, emit, Printed. cbn [world trace str_exn].
  now rewrite <- !app_assoc.
Qed.


Lemma clone_events_popen (url : string) (lfs : outcome)
  (clone : list string * status) (a lines : list string) (s : status) :
  In (Popen a lines s) (clone_events url lfs clone) ->
  exists out err tail,
    a = clone_command url /\
    clone_events url lfs clone
    = Run lfs_command (Exited 0 out err) ::
      Printed ("Git LFS initialized." ++ nl ++ out) ::
      Popen a lines s :: tail.
Proof.
  intros Hin. unfold clone_events in *.
  destruct lfs as [rc out err|msg].
  - destruct (Z.eqb_spec rc 0) as [->|Hne].
    + exists out, err. eexists.
      destruct Hin as [Hin|[Hin|[Hin|Hin]]]; try discriminate.
      * injection Hin as <- <- <-. split; reflexivity.
      * exfalso. apply in_app_or in Hin as [Hin|[Hin|[]]];
          [|discriminate Hin].
        apply in_map_iff in Hin as (line & Hline & _). discriminate.
    + exfalso. destruct Hin as [Hin|[Hin|[Hin|[]]]]; discriminate.
  - exfalso. destruct Hin as [Hin|[Hin|[]]]; discriminate.
Qed.

Lemma around_clone {A : Type} (a b tail c : list A) (x y z : A) :
  a ++ b ++ (x :: y :: z :: tail) ++ c
  = (a ++ b) ++ x :: y :: z :: tail ++ c.
Proof. now rewrite <- !app_assoc. Qed.

(** X11: in a run, a clone comes directly after an initialisation that
    exited with status 0 and its report, and is started on the reference
    supplied; however the clone ends, the converter is invoked later in
    the run. *)
Theorem clone_then_convert (argv : list string) (w : W) (r : result unit)
  (st' : state W) (a lines : list string) (s : status) :
  main argv (start w) = (r, st') ->
  In (Popen a lines s) (trace st') ->
  exists url out err pre post name conv,
    url_given argv (trace st') url /\
    a = ["git"; "clone"; url] /\
    trace st'
    = pre ++
      Run lfs_command (Exited 0 out err) ::
      Printed ("Git LFS initialized." ++ nl ++ out) ::
      Popen a lines s :: post /\
    In (Run (convert_command name (fp16_output_file name)) conv) post.
Proof.
  intros Hmain Hin.
  destruct (main_runs _ _ _ _ Hmain) as (tr & Htr & Hshape).
  cbn [start trace app world] in Htr, Hshape. rewrite Htr in *. clear Htr.
  destruct Hshape as
    [raised Hargv
    | raised url src name lfs clone msg Hsrc Hname
    | raised url src name lfs clone rc' out' err' Hsrc Hname Hargv
    | raised url src name lfs clone rc' out' err' method msrc s'
        Hsrc Hname Hmsrc].
  - to_calls Hin. in_cases Hin.
  - match goal with |- context [url_given argv ?t] => set (tr := t) end.
    assert (Hurl : url_given argv tr url).
    { destruct Hsrc as [Hlen | line Hlen];
        [left; now split | right; split; [assumption | subst tr; find_in]]. }
    subst tr.
    apply in_app_or in Hin as [Hin|Hin]; [to_calls Hin; in_cases Hin|].
    apply in_app_or in Hin as [Hin|Hin];
      [exfalso; destruct Hsrc; to_calls Hin; in_cases Hin|].
    apply in_app_or in Hin as [Hin|Hin];
      [|exfalso; to_calls Hin; in_cases Hin].
    destruct (clone_events_popen _ _ _ _ _ _ Hin)
      as (out & err & tail & Ha & Heq).
    rewrite Heq in *. exists url, out, err. eexists _, _, name, _.
    split; [exact Hurl|]. split; [exact Ha|].
    split; [apply around_clone|]. apply in_or_app. right. find_in.
  - match goal with |- context [url_given argv ?t] => set (tr := t) end.
    assert (Hurl : url_given argv tr url).
    { destruct Hsrc as [Hlen | line Hlen];
        [left; now split | right; split; [assumption | subst tr; find_in]]. }
    subst tr.
    apply in_app_or in Hin as [Hin|Hin]; [to_calls Hin; in_cases Hin|].
    apply in_app_or in Hin as [Hin|Hin];
      [exfalso; destruct Hsrc; to_calls Hin; in_cases Hin|].
    apply in_app_or in Hin as [Hin|Hin];
      [|exfalso; to_calls Hin; in_cases Hin].
    destruct (clone_events_popen _ _ _ _ _ _ Hin)
      as (out & err & tail & Ha & Heq).
    rewrite Heq in *. exists url, out, err. eexists _, _, name, _.
    split; [exact Hurl|]. split; [exact Ha|].
    split; [apply around_clone|]. apply in_or_app. right. find_in.
  - match goal with |- context [url_given argv ?t] => set (tr := t) end.
    assert (Hurl : url_given argv tr url).
    { destruct Hsrc as [Hlen | line Hlen];
        [left; now split | right; split; [assumption | subst tr; find_in]]. }
    subst tr.
    apply in_app_or in Hin as [Hin|Hin]; [to_calls Hin; in_cases Hin|].
    apply in_app_or in Hin as [Hin|Hin];
      [exfalso; destruct Hsrc; to_calls Hin; in_cases Hin|].
    apply in_app_or in Hin as [Hin|Hin];
      [|exfalso; destruct Hmsrc; to_calls Hin; in_cases Hin].
    destruct (clone_events_popen _ _ _ _ _ _ Hin)
      as (out & err & tail & Ha & Heq).
    rewrite Heq in *. exists url, out, err. eexists _, _, name, _.
    split; [exact Hurl|]. split; [exact Ha|].
    split; [apply around_clone|]. apply in_or_app. right. find_in.
Qed.

(** X12: when the converter cannot be run at all,
    [convert_model_to_fp16] prints nothing and lets the exception through;
    [main] ends with it, without asking for a method and without invoking
    the quantizer. *)
Theorem converter_unavailable_halts :
  (forall (st : state W) (name path msg : string) (w' : W),
      subprocess_run (convert_command name path) (world st) = (Failed msg, w') ->
      convert_model_to_fp16 name path st
      = (Raise (OtherException msg),
         mkState w' (trace st ++ [Run (convert_command name path) (Failed msg)])))
  /\
  (forall (argv : list string) (w : W) (r : result unit) (st' : state W)
          (name path msg : string),
      main argv (start w) = (r, st') ->
      In (Run (convert_command name path) (Failed msg)) (trace st') ->
      r = Raise (OtherException msg) /\
      (forall answer, ~ In (Input method_prompt answer) (trace st')) /\
      (forall cmd s, ~ In (Shell cmd s) (trace st'))).
Proof.
  split.
  - intros st name path msg w' Hrun.
    rewrite convert_model_to_fp16_run, Hrun. reflexivity.
  - intros argv w r st' name path msg Hmain Hin.
    destruct (main_runs _ _ _ _ Hmain) as (tr & Htr & Hshape).
    cbn [start trace app world] in Htr, Hshape. rewrite Htr in *. clear Htr.
    destruct Hshape as
      [raised Hargv
      | raised url src name' lfs clone msg' Hsrc Hname
      | raised url src name' lfs clone rc' out' err' Hsrc Hname Hargv
      | raised url src name' lfs clone rc' out' err' method msrc s'
          Hsrc Hname Hmsrc].
    + to_calls Hin. in_cases Hin.
    + assert (msg' = msg)
        by (destruct Hsrc; to_calls Hin; in_cases Hin; now injection Hin).
      subst msg'. split; [reflexivity|]. split.
      * intros answer Hask. destruct Hsrc; to_calls Hask; in_cases Hask.
      * intros cmd s Hsh. destruct Hsrc; to_calls Hsh; in_cases Hsh.
    + destruct Hsrc; to_calls Hin; in_cases Hin.
    + destruct Hsrc, Hmsrc; to_calls Hin; in_cases Hin.
Qed.


(** X14: no [CalledProcessError] and no [IndexError] ever leaves [main]:
    every non-zero exit status is handled where it arises, and the index
    [-1] that gives the Model Name never fails. *)
Theorem no_status_error_escapes (argv : list string) (w : W)
  (r : result unit) (st' : state W) :
  main argv (start w) = (r, st') ->
  (forall cmd rc out err, r <> Raise (CalledProcessError cmd rc out err)) /\
  r <> Raise IndexError.
Proof.
  intros Hmain.
  destruct (main_runs _ _ _ _ Hmain) as (tr & Htr & Hshape).
  destruct Hshape as
    [raised Hargv
    | raised url src name lfs clone msg Hsrc Hname
    | raised url src name lfs clone rc' out' err' Hsrc Hname Hargv
    | raised url src name lfs clone rc' out' err' method msrc s
        Hsrc Hname Hmsrc];
    try (split; [intros cmd rc out err|]; discriminate).
  destruct s; (split; [intros cmd rc out err|]; discriminate).
Qed.



(** X17: with both command-line arguments present [main] never reads
    from the console, so end of input cannot stop it. *)
Theorem noninteractive_with_arguments (argv : list string) (w : W)
  (r : result unit) (st' : state W) :
  main argv (start w) = (r, st') ->
  (2 < length argv)%nat ->
  (forall prompt answer, ~ In (Input prompt answer) (trace st')) /\
  r <> Raise EOFError.
Proof.
  intros Hmain Hlen.
  destruct (main_runs _ _ _ _ Hmain) as (tr & Htr & Hshape).
  cbn [start trace app world] in Htr, Hshape. rewrite Htr in *. clear Htr.
  destruct Hshape as
    [raised Hargv
    | raised url src name lfs clone msg Hsrc Hname
    | raised url src name lfs clone rc' out' err' Hsrc Hname Hargv
    | raised url src name lfs clone rc' out' err' method msrc s
        Hsrc Hname Hmsrc]; try lia.
  - destruct Hsrc as [_ | line Hlen']; [|lia].
    split; [|discriminate]. intros prompt answer Hin.
    to_calls Hin. in_cases Hin.
  - destruct Hsrc as [_ | line Hlen']; [|lia].
    destruct Hmsrc as [_ | line Hlen']; [|lia].
    split; [|destruct s; discriminate]. intros prompt answer Hin.
    to_calls Hin. in_cases Hin.
Qed.

Lemma between_marks {A : Type} (a b c ct m qt : list A) (x y : A) :
  a ++ b ++ c ++ (x :: ct) ++ m ++ y :: qt
  = (a ++ b ++ c) ++ x :: (ct ++ m) ++ y :: qt.
Proof. now rewrite <- !app_assoc. Qed.

(** X18: in a run, an invocation of the quantizer comes after a converter
    call that ran to an exit status, and its command line is built from
    the model name and the intermediate path of that call. *)
Theorem quantizer_needs_conversion (argv : list string) (w : W)
  (r : result unit) (st' : state W) (cmd : string) (s : status) :
  main argv (start w) = (r, st') ->
  In (Shell cmd s) (trace st') ->
  exists name method rc out err pre mid post,
    trace st'
    = pre ++
      Run (convert_command name (fp16_output_file name)) (Exited rc out err)
      :: mid ++ Shell cmd s :: post /\
    cmd = quantize_command (fp16_output_file name) (qtype name method) method.
Proof.
  intros Hmain Hin.
  destruct (main_runs _ _ _ _ Hmain) as (tr & Htr & Hshape).
  cbn [start trace app] in Htr. rewrite Htr in *. clear Htr.
  destruct Hshape as
    [raised Hargv
    | raised url src name lfs clone msg Hsrc Hname
    | raised url src name lfs clone rc' out' err' Hsrc Hname Hargv
    | raised url src name lfs clone rc' out' err' method msrc s'
        Hsrc Hname Hmsrc].
  - to_calls Hin. in_cases Hin.
  - destruct Hsrc; to_calls Hin; in_cases Hin.
  - destruct Hsrc; to_calls Hin; in_cases Hin.
  - assert (Hid : quantize_command (fp16_output_file name)
                    (qtype name method) method = cmd /\ s' = s).
    { destruct Hsrc, Hmsrc; to_calls Hin; in_cases Hin;
        injection Hin as <- <-; now split. }
    destruct Hid as [Hcmd ->].
    exists name, method, rc', out', err'. eexists _, _, _.
    split; [|now symmetry].
    rewrite Hcmd.
    change (convert_events name (fp16_output_file name) (Exited rc' out' err'))
      with (Run (convert_command name (fp16_output_file name))
              (Exited rc' out' err')
            :: tl (convert_events name (fp16_output_file name)
                     (Exited rc' out' err'))).
    change (quantize_events cmd method s)
      with (Shell cmd s :: tl (quantize_events cmd method s)).
    apply between_marks.
Qed.

Lemma count_calls (p : event -> bool) (tr : list event) :
  (forall e, p e = true -> is_call e = true) ->
  count p tr = count p (calls tr).
Proof.
  intros Hp. unfold count, calls.
  induction tr as [|e rest IH]; [reflexivity|]. cbn [filter].
  destruct (p e) eqn:He.
  - rewrite (Hp e He). cbn [filter]. rewrite He. cbn [length]. now rewrite IH.
  - destruct (is_call e); [cbn [filter]; rewrite He|]; exact IH.
Qed.

(** Reduces a bound on [count p tr], for a trace built from stage events,
    to the cases of the calls it holds. *)
Ltac count_cases :=
  rewrite count_calls by (intros [] ?; (reflexivity || discriminate));
  rewrite ?calls_app, ?calls_login, ?calls_clone, ?calls_convert,
    ?calls_catalog, ?calls_quantize;
  unfold count, lfs_command, convert_command, url_prompt, method_prompt;
  cbn [calls filter is_call app];
  repeat match goal with
    | |- context [if truthy ?t then _ else _] => destruct (truthy t)
    | |- context [match ?o with Exited _ _ _ => _ | Failed _ => _ end] =>
        destruct o
    | |- context [if (?rc =? 0)%Z then _ else _] => destruct (rc =? 0)%Z
    end;
  cbn [filter app is_login is_run_of is_popen is_shell is_input_of];
  repeat match goal with
    | |- context [if list_eq_dec string_dec ?a ?b then _ else _] =>
        destruct (list_eq_dec string_dec a b)
    | |- context [String.eqb ?a ?b] => destruct (String.eqb_spec a b)
    end;
  cbn [filter app length]; try lia; congruence.

(** X19: nothing is retried: in a run [login], each subprocess command
    line, the clone, the quantizer and each prompt occur at most once. *)
Theorem no_retries (argv : list string) (w : W) (r : result unit)
  (st' : state W) :
  main argv (start w) = (r, st') ->
  (count is_login (trace st') <= 1)%nat /\
  (forall a, (count (is_run_of a) (trace st') <= 1)%nat) /\
  (count is_popen (trace st') <= 1)%nat /\
  (count is_shell (trace st') <= 1)%nat /\
  (forall prompt, (count (is_input_of prompt) (trace st') <= 1)%nat).
Proof.
  intros Hmain.
  destruct (main_runs _ _ _ _ Hmain) as (tr & Htr & Hshape).
  cbn [start trace app world] in Htr, Hshape. rewrite Htr in *. clear Htr.
  destruct Hshape as
    [raised Hargv
    | raised url src name lfs clone msg Hsrc Hname
    | raised url src name lfs clone rc' out' err' Hsrc Hname Hargv
    | raised url src name lfs clone rc' out' err' method msrc s
        Hsrc Hname Hmsrc].
  - repeat split; intros; count_cases.
  - destruct Hsrc; repeat split; intros; count_cases.
  - destruct Hsrc; repeat split; intros; count_cases.
  - destruct Hsrc, Hmsrc; repeat split; intros; count_cases.
Qed.

End Behaviour.

(** ** Concrete runs for the further properties *)

(** The equation of a closed run. *)
Ltac run_eq argv s :=
  assert (Hrun : main argv (start s) = (run_result argv s, run_state argv s))
    by (vm_compute; reflexivity).

Lemma login_failure_continues_witness :
  hf_login (start login_denied)
  = (Normal tt,
     mkState login_denied
       [Getenv "HF_TOKEN" (Some "hf_secret");
        Login "hf_secret" (Some "Invalid user token");
        Printed "Failed to log in to Hugging Face: Invalid user token"]) /\
  In (Login "hf_secret" (Some "Invalid user token"))
     (run_trace demo_argv login_denied) /\
  exists lfs name conv,
    model_name_of demo_url = Some name /\
    In (Run lfs_command lfs) (run_trace demo_argv login_denied) /\
    In (Run (convert_command name (fp16_output_file name)) conv)
       (run_trace demo_argv login_denied).
Proof.
  destruct (@login_failure_continues script scripted ascii_case)
    as [Hstage Hdriver].
  split.
  - apply (Hstage (start login_denied) "hf_secret" "Invalid user token"
             login_denied); [reflexivity | discriminate | reflexivity].
  - assert (Hin : In (Login "hf_secret" (Some "Invalid user token"))
                     (run_trace demo_argv login_denied))
      by (vm_compute; pick).
    split; [exact Hin|].
    run_eq demo_argv login_denied.
    apply (proj2 (Hdriver _ _ _ _ _ _ Hrun Hin) demo_url).
    left. split; [vm_compute; lia | reflexivity].
Defined.

Lemma login_only_with_token_witness :
  os_getenv "HF_TOKEN" login_denied = Some "hf_secret" /\
  exists res, In (Login "hf_secret" res) (run_trace demo_argv login_denied).
Proof.
  split; [reflexivity|].
  run_eq demo_argv login_denied.
  apply (proj2 (@login_only_with_token script scripted ascii_case _ _ _ _ Hrun)
           "hf_secret"); [reflexivity | discriminate].
Defined.

Lemma git_unavailable_reported_witness :
  clone_repository demo_url (start git_missing)
  = (Normal tt,
     mkState git_missing
       [Run lfs_command (Failed "No such file or directory: 'git'");
        Printed "An error occurred: No such file or directory: 'git'"]).
Proof.
  apply (@git_unavailable_reported script scripted
           (start git_missing) demo_url "No such file or directory: 'git'"
           git_missing).
  reflexivity.
Defined.


Lemma clone_then_convert_witness :
  In (Popen ["git"; "clone"; demo_url] ["fatal: repository not found"]
        (ExitStatus 128))
     (run_trace demo_argv clone_fails) /\
  exists url out err pre post name conv,
    url_given demo_argv (run_trace demo_argv clone_fails) url /\
    ["git"; "clone"; demo_url] = ["git"; "clone"; url] /\
    run_trace demo_argv clone_fails
    = pre ++
      Run lfs_command (Exited 0 out err) ::
      Printed ("Git LFS initialized." ++ nl ++ out) ::
      Popen ["git"; "clone"; demo_url] ["fatal: repository not found"]
        (ExitStatus 128) :: post /\
    In (Run (convert_command name (fp16_output_file name)) conv) post.
Proof.
  assert (Hin : In (Popen ["git"; "clone"; demo_url]
                      ["fatal: repository not found"] (ExitStatus 128))
                   (run_trace demo_argv clone_fails))
    by (vm_compute; pick).
  split; [exact Hin|].
  run_eq demo_argv clone_fails.
  exact (@clone_then_convert script scripted ascii_case
           _ _ _ _ _ _ _ Hrun Hin).
Defined.

Lemma converter_unavailable_halts_witness :
  convert_model_to_fp16 "Foo-7B" "Foo-7B/foo-7b.fp16.bin"
    (start converter_missing)
  = (Raise (OtherException "No such file or directory: 'python'"),
     mkState converter_missing
       [Run (convert_command "Foo-7B" "Foo-7B/foo-7b.fp16.bin")
          (Failed "No such file or directory: 'python'")]) /\
  In (Run (convert_command "Foo-7B" "Foo-7B/foo-7b.fp16.bin")
        (Failed "No such file or directory: 'python'"))
     (run_trace demo_argv converter_missing) /\
  run_result demo_argv converter_missing
  = Raise (OtherException "No such file or directory: 'python'") /\
  (forall answer,
      ~ In (Input method_prompt answer) (run_trace demo_argv converter_missing))
  /\
  (forall cmd s, ~ In (Shell cmd s) (run_trace demo_argv converter_missing)).
Proof.
  destruct (@converter_unavailable_halts script scripted ascii_case)
    as [Hstage Hdriver].
  split.
  - apply (Hstage (start converter_missing) "Foo-7B" "Foo-7B/foo-7b.fp16.bin"
             "No such file or directory: 'python'" converter_missing).
    reflexivity.
  - assert (Hin : In (Run (convert_command "Foo-7B" "Foo-7B/foo-7b.fp16.bin")
                        (Failed "No such file or directory: 'python'"))
                     (run_trace demo_argv converter_missing))
      by (vm_compute; pick).
    split; [exact Hin|].
    run_eq demo_argv converter_missing.
    exact (Hdriver _ _ _ _ _ _ _ Hrun Hin).
Defined.


Lemma no_status_error_escapes_witness :
  In (Shell demo_quantize_line (ExitStatus 1))
     (run_trace demo_argv quantize_fails) /\
  (forall cmd rc out err,
      run_result demo_argv quantize_fails
      <> Raise (CalledProcessError cmd rc out err)) /\
  run_result demo_argv quantize_fails <> Raise IndexError.
Proof.
  split; [vm_compute; pick|].
  run_eq demo_argv quantize_fails.
  exact (@no_status_error_escapes script scripted ascii_case _ _ _ _ Hrun).
Defined.


Example quantization_failure_message :
  str_exn (CalledProcessError (inr demo_quantize_line) 1 None None)
  = "Command './llama.cpp/quantize Foo-7B/foo-7b.fp16.bin Foo-7B/foo-7b.Q4_K_M.gguf q4_k_m' returned non-zero exit status 1.".
Proof. reflexivity. Qed.


Lemma noninteractive_with_arguments_witness :
  (2 < length demo_argv)%nat /\
  (forall prompt answer,
      ~ In (Input prompt answer) (run_trace demo_argv (all_succeed []))) /\
  run_result demo_argv (all_succeed []) <> Raise EOFError.
Proof.
  assert (Hlen : (2 < length demo_argv)%nat) by (vm_compute; lia).
  split; [exact Hlen|].
  run_eq demo_argv (all_succeed []).
  exact (@noninteractive_with_arguments script scripted ascii_case
           _ _ _ _ Hrun Hlen).
Defined.

Lemma no_retries_witness :
  (count is_login (run_trace demo_argv login_denied) <= 1)%nat /\
  (forall a, (count (is_run_of a) (run_trace demo_argv login_denied) <= 1)%nat) /\
  (count is_popen (run_trace demo_argv login_denied) <= 1)%nat /\
  (count is_shell (run_trace demo_argv login_denied) <= 1)%nat /\
  (forall prompt,
      (count (is_input_of prompt) (run_trace demo_argv login_denied) <= 1)%nat).
Proof.
  run_eq demo_argv login_denied.
  exact (@no_retries script scripted ascii_case _ _ _ _ Hrun).
Defined.

Lemma quantizer_needs_conversion_witness :
  In (Shell demo_quantize_line (ExitStatus 0))
     (run_trace demo_argv (all_succeed [])) /\
  exists name method rc out err pre mid post,
    run_trace demo_argv (all_succeed [])
    = pre ++
      Run (convert_command name (fp16_output_file name)) (Exited rc out err)
      :: mid ++ Shell demo_quantize_line (ExitStatus 0) :: post /\
    demo_quantize_line
    = quantize_command (fp16_output_file name) (qtype name method) method.
Proof.
  assert (Hin : In (Shell demo_quantize_line (ExitStatus 0))
                   (run_trace demo_argv (all_succeed [])))
    by (vm_compute; pick).
  split; [exact Hin|].
  run_eq demo_argv (all_succeed []).
  exact (@quantizer_needs_conversion script scripted ascii_case
           _ _ _ _ _ _ Hrun Hin).
Defined.
